(** * WaterfallLayout: a shallow embedding of the waterfall (masonry) card layout

    Source: packages/@react-spectrum/cards/src/WaterfallLayout.tsx.

    Numbers.  The layout works on JavaScript numbers.  Pixel quantities are
    modelled as whole numbers ([Z]).  Sums, differences and products of whole
    numbers are exact, and so is one division followed by [Math.floor] or
    [Math.round] ([js_floor_div], [round_div]), as long as the values stay
    far below 2^53.  The scaled height of line 146 is a product with a
    quotient that is rounded to a double first; it is computed with the
    binary64 roundings of [Double] below, so that the pixel it yields is the
    one the source yields.  The two places where the source lets [Infinity]
    or [NaN] in (the [Infinity] defaults of [maxItemSize] and [maxColumns],
    and the divisions) are modelled with [bound] and [xnum] below, so that a
    division by zero is visible in the model instead of being hidden by
    [Z.div].

    Exceptions.  A method that throws leaves the model with [Throw]; the
    fields it had assigned before the throw are not followed further.

    Objects.  Every entry the layout stores in [layoutInfos] is a fresh
    object ([new LayoutInfo], [copy()]), so the cache is modelled by value
    as a [gmap].  The one write to an object that is no longer in the cache
    (in [updateItemSize]) is kept as an explicit component of the result. *)

From Stdlib Require Import ZArith Lia Bool.
From stdpp Require Import gmap strings list fin_maps.

Open Scope Z_scope.

(** ** JavaScript numbers, as far as the layout needs them *)

(** A number that may have left the finite range. *)
Inductive xnum : Type :=
  | NaN
  | NInf
  | Num (z : Z)
  | PInf.

(** An upper limit that is either a whole number or [Infinity]. *)
Inductive bound : Type :=
  | Finite (z : Z)
  | Infinity.

(** [Math.floor(a / b)] on whole numbers. *)
Definition js_floor_div (a b : Z) : xnum :=
  if b =? 0 then
    (if 0 <? a then PInf else if a <? 0 then NInf else NaN)
  else Num (a / b).

(** [Math.round(a / b)] for [b <> 0]: [Math.round] is [floor(x + 1/2)]. *)
Definition round_div (a b : Z) : Z := (2 * a + b) / (2 * b).

(** Binary64 numbers and the two operations of line 146.  A double is kept
    as [mant * 2 ^ expo]; every operation rounds its exact result to the
    nearest number with a mantissa of 53 bits, ties to the even mantissa, as
    IEEE 754 prescribes.  The exponent is not bounded: the results are those
    of a JavaScript engine wherever no overflow and no underflow occurs,
    which covers every length a layout meets. *)
Module Double.
Record t : Type := mk { mant : Z; expo : Z }.

(** The integer nearest to [n / d], ties to even, for [0 < d]. *)
Definition rne_div (n d : Z) : Z :=
  let q := n / d in
  let r := n mod d in
  match 2 * r ?= d with
  | Lt => q
  | Gt => q + 1
  | Eq => if Z.even q then q else q + 1
  end.

(** The double nearest to the rational [n / d], for [0 < d]: the exponent is
    chosen so that the mantissa has 53 bits before rounding. *)
Definition fl (n d : Z) : t :=
  if n =? 0 then mk 0 0
  else
    let k := Z.log2 (Z.abs n) - Z.log2 d in
    let above := if 0 <=? k then d * 2 ^ k <=? Z.abs n
                 else d <=? Z.abs n * 2 ^ (- k) in
    let e := (if above then k else k - 1) - 52 in
    let m := if 0 <=? e then rne_div n (d * 2 ^ e)
             else rne_div (n * 2 ^ (- e)) d in
    mk m e.

(** The double nearest to [(n / d) * 2 ^ s]. *)
Definition fl_scaled (n d s : Z) : t :=
  if 0 <=? s then fl (n * 2 ^ s) d else fl n (d * 2 ^ (- s)).

(** A whole number as a double. *)
Definition of_Z (z : Z) : t := fl z 1.

(** [x / y] for [y] other than zero. *)
Definition div (x y : t) : t :=
  fl_scaled (Z.sgn (mant y) * mant x) (Z.abs (mant y)) (expo x - expo y).

(** [x * y]. *)
Definition mul (x y : t) : t :=
  fl_scaled (mant x * mant y) 1 (expo x + expo y).

(** [Math.round(x)]: the integer nearest to [x], ties upwards. *)
Definition round (x : t) : Z :=
  if 0 <=? expo x then mant x * 2 ^ expo x
  else (2 * mant x + 2 ^ (- expo x)) / 2 ^ (1 - expo x).
End Double.

(** [Math.round(w * (a / h))], line 146: the quotient is rounded to a
    double, then the product, then the result to an integer. *)
Definition js_scale_round (w a h : Z) : xnum :=
  if h =? 0 then
    (if a =? 0 then NaN
     else if w =? 0 then NaN
     else if 0 <? w * a then PInf else NInf)
  else
    Num (Double.round
           (Double.mul (Double.of_Z w)
              (Double.div (Double.of_Z a) (Double.of_Z h)))).

(** [Math.min(b, x)]. *)
Definition xmin_bound (b : bound) (x : xnum) : xnum :=
  match x, b with
  | NaN, _ => NaN
  | NInf, _ => NInf
  | Num z, Finite m => Num (Z.min m z)
  | Num z, Infinity => Num z
  | PInf, Finite m => Num m
  | PInf, Infinity => PInf
  end.

(** [Math.max(z, x)]. *)
Definition xmax_z (z : Z) (x : xnum) : xnum :=
  match x with
  | NaN => NaN
  | NInf => Num z
  | Num y => Num (Z.max z y)
  | PInf => PInf
  end.

(** [x + z]. *)
Definition xadd_z (x : xnum) (z : Z) : xnum :=
  match x with
  | Num y => Num (y + z)
  | other => other
  end.

(** [Math.min(b, z)] when the second argument is finite. *)
Definition min_bound (b : bound) (z : Z) : Z :=
  match b with
  | Finite m => Z.min m z
  | Infinity => z
  end.

(** [x <= b], with [Infinity] above everything. *)
Definition le_bound (z : Z) (b : bound) : Prop :=
  match b with
  | Finite m => z <= m
  | Infinity => True
  end.

(** The order of [xnum]; [NaN] is comparable with nothing. *)
Definition xle (a b : xnum) : Prop :=
  match a, b with
  | NaN, _ | _, NaN => False
  | NInf, _ => True
  | _, PInf => True
  | Num x, Num y => x <= y
  | _, _ => False
  end.

(** JavaScript truthiness of a number: zero is falsy. *)
Definition truthy (n : Z) : bool := negb (n =? 0).

(** ** Geometry: [Size], [Rect] (from @react-stately/virtualizer) *)

Module Size.
Record t : Type := mk { width : Z; height : Z }.
End Size.

(** A [Size] whose components may be [Infinity] (the default [maxItemSize]). *)
Module MaxSize.
Record t : Type := mk { width : bound; height : bound }.
End MaxSize.

Module Rect.
Record t : Type := mk { x : Z; y : Z; width : Z; height : Z }.

(** Modelled from the spec: the getters of [Rect], a class of
    @react-stately/virtualizer that is not among the sources
    ([maxX = x + width], [maxY = y + height]). *)
Definition maxX (r : t) : Z := x r + width r.
Definition maxY (r : t) : Z := y r + height r.

(** The assignment [rect.height = h]. *)
Definition with_height (h : Z) (r : t) : t := mk (x r) (y r) (width r) h.

(** Modelled from the spec: whether two rectangles intersect, touching
    edges included; used by the model of [_findClosest] only. *)
Definition intersects (a b : t) : bool :=
  (x a <=? x b + width b) && (x b <=? x a + width a)
  && (y a <=? y b + height b) && (y b <=? y a + height a).
End Rect.

(** ** Keys, layout infos, collections *)

(** [Key = string | number]. *)
Definition Key : Type := (string + Z)%type.

Definition skey (s : string) : Key := inl s.
Definition nkey (n : Z) : Key := inr n.

(** Falsiness of an optional key, as tested by [if (!key)]:
    [undefined], [0] and the empty string are falsy. *)
Definition falsy_key (k : option Key) : bool :=
  match k with
  | None => true
  | Some (inl s) => bool_decide (s = ""%string)
  | Some (inr n) => n =? 0
  end.

(** [LayoutInfo] (a class of @react-stately/virtualizer): the fields the
    layout reads or writes. *)
Record LayoutInfo : Type := mkLayoutInfo {
  li_type : string;
  li_key : Key;
  rect : Rect.t;
  estimatedSize : bool
}.

(** Modelled from the spec: the constructor [new LayoutInfo(type, key, rect)],
    not among the sources.  A new entry is not estimated until the layout
    says so. *)
Definition newLayoutInfo (type : string) (key : Key) (r : Rect.t) : LayoutInfo :=
  mkLayoutInfo type key r false.

(** The assignments [layoutInfo.estimatedSize = e] and
    [layoutInfo.rect.height = h]. *)
Definition set_estimatedSize (e : bool) (li : LayoutInfo) : LayoutInfo :=
  mkLayoutInfo (li_type li) (li_key li) (rect li) e.

Definition set_rect_height (h : Z) (li : LayoutInfo) : LayoutInfo :=
  mkLayoutInfo (li_type li) (li_key li) (Rect.with_height h (rect li)) (estimatedSize li).

(** Modelled from the spec: [LayoutInfo.copy] belongs to
    @react-stately/virtualizer, which is not among the sources.  The copy is a
    fresh object that carries every field of the original (the spec's
    copy-on-write policy: same key and position, one field patched
    afterwards). *)
Definition copy (li : LayoutInfo) : LayoutInfo :=
  mkLayoutInfo (li_type li) (li_key li) (rect li) (estimatedSize li).

(** A collection node: its key, its type and the optional intrinsic size
    found in [node.props]. *)
Record Node : Type := mkNode {
  node_key : Key;
  node_type : string;
  props_width : option Z;
  props_height : option Z
}.

(** Modelled from the spec: the collection, an external collaborator of the
    layout, as its ordered list of nodes, with [getKeys], [getItem] (the node
    of that key, if any) and [size] (the item count). *)
Module Collection.
Definition t : Type := list Node.

Definition getKeys (c : t) : list Key := map node_key c.

Definition getItem (c : t) (key : Key) : option Node :=
  find (fun n => bool_decide (node_key n = key)) c.

Definition size (c : t) : Z := Z.of_nat (length c).
End Collection.

Inductive Direction : Type := ltr | rtl.

(** What the layout reads from its virtualizer. *)
Record Virtualizer : Type := mkVirtualizer {
  v_collection : Collection.t;
  visibleRect : Rect.t;
  v_contentSize : Size.t
}.

Record InvalidationContext : Type := mkInvalidationContext {
  sizeChanged : bool
}.

(** ** Outcomes

    A method either returns, or throws.  [OffModel] marks a run in which a
    non-finite number would enter a rectangle, which the whole-number model
    of rectangles does not follow; [estimateHeight_finite] and
    [buildCollection_on_model] show that no run reaches it. *)

Inductive JsError : Type := TypeError | RangeError.

Inductive outcome (A : Type) : Type :=
  | Done (a : A)
  | Throw (e : JsError)
  | OffModel.

Arguments Done {A} a.
Arguments Throw {A} e.
Arguments OffModel {A}.

Definition bind {A B : Type} (m : outcome A) (f : A -> outcome B) : outcome B :=
  match m with
  | Done a => f a
  | Throw e => Throw e
  | OffModel => OffModel
  end.

Notation "'let*' x ':=' m 'in' k" := (bind m (fun x => k))
  (at level 10, x name, m at level 100, k at level 200).

(** ** The layout object *)

Record WaterfallLayoutOptions : Type := mkOptions {
  opt_minItemSize : option Size.t;
  opt_maxItemSize : option MaxSize.t;
  opt_minSpace : option Size.t;
  opt_maxColumns : option bound;
  opt_itemPadding : option Z
}.

Definition noOptions : WaterfallLayoutOptions :=
  mkOptions None None None None None.

(** The fields of [WaterfallLayout], with those it inherits from
    [BaseLayout] and uses ([layoutInfos], [lastCollection], [collection],
    [isLoading], [direction], [contentSize]). *)
Record WaterfallLayout : Type := mkLayout {
  minItemSize : Size.t;
  maxItemSize : MaxSize.t;
  margin : Z;
  minSpace : Size.t;
  maxColumns : bound;
  itemPadding : Z;
  numColumns : Z;
  itemWidth : Z;
  horizontalSpacing : Z;
  layoutInfos : gmap Key LayoutInfo;
  lastCollection : option Collection.t;
  collection : Collection.t;
  isLoading : bool;
  direction : Direction;
  contentSize : Size.t
}.

Definition set_collection (c : Collection.t) (L : WaterfallLayout) : WaterfallLayout :=
  mkLayout (minItemSize L) (maxItemSize L) (margin L) (minSpace L) (maxColumns L)
    (itemPadding L) (numColumns L) (itemWidth L) (horizontalSpacing L)
    (layoutInfos L) (lastCollection L) c (isLoading L) (direction L) (contentSize L).

Definition set_lastCollection (c : option Collection.t) (L : WaterfallLayout) : WaterfallLayout :=
  mkLayout (minItemSize L) (maxItemSize L) (margin L) (minSpace L) (maxColumns L)
    (itemPadding L) (numColumns L) (itemWidth L) (horizontalSpacing L)
    (layoutInfos L) c (collection L) (isLoading L) (direction L) (contentSize L).

Definition set_layoutInfos (m : gmap Key LayoutInfo) (L : WaterfallLayout) : WaterfallLayout :=
  mkLayout (minItemSize L) (maxItemSize L) (margin L) (minSpace L) (maxColumns L)
    (itemPadding L) (numColumns L) (itemWidth L) (horizontalSpacing L)
    m (lastCollection L) (collection L) (isLoading L) (direction L) (contentSize L).

Definition set_isLoading (b : bool) (L : WaterfallLayout) : WaterfallLayout :=
  mkLayout (minItemSize L) (maxItemSize L) (margin L) (minSpace L) (maxColumns L)
    (itemPadding L) (numColumns L) (itemWidth L) (horizontalSpacing L)
    (layoutInfos L) (lastCollection L) (collection L) b (direction L) (contentSize L).

Definition set_direction (d : Direction) (L : WaterfallLayout) : WaterfallLayout :=
  mkLayout (minItemSize L) (maxItemSize L) (margin L) (minSpace L) (maxColumns L)
    (itemPadding L) (numColumns L) (itemWidth L) (horizontalSpacing L)
    (layoutInfos L) (lastCollection L) (collection L) (isLoading L) d (contentSize L).

(** What [buildCollection] writes. *)
Definition set_built (n w hs : Z) (m : gmap Key LayoutInfo) (cs : Size.t)
    (L : WaterfallLayout) : WaterfallLayout :=
  mkLayout (minItemSize L) (maxItemSize L) (margin L) (minSpace L) (maxColumns L)
    (itemPadding L) n w hs m (lastCollection L) (collection L) (isLoading L)
    (direction L) cs.

(** The constructor.  [options.maxColumns || Infinity] turns a zero into
    [Infinity]; [collection] and [contentSize] are not yet assigned (they are
    written by [validate] before anything reads them) and [isLoading] and
    [direction] are assigned by the owner of the layout. *)
Definition new_WaterfallLayout (options : WaterfallLayoutOptions) : WaterfallLayout :=
  {| minItemSize := default (Size.mk 240 136) (opt_minItemSize options);
     maxItemSize := default (MaxSize.mk Infinity Infinity) (opt_maxItemSize options);
     margin := 24;
     minSpace := default (Size.mk 24 24) (opt_minSpace options);
     maxColumns :=
       match opt_maxColumns options with
       | Some (Finite n) => if truthy n then Finite n else Infinity
       | Some Infinity | None => Infinity
       end;
     itemPadding := default 56 (opt_itemPadding options);
     numColumns := 0;
     itemWidth := 0;
     horizontalSpacing := 0;
     layoutInfos := ∅;
     lastCollection := None;
     collection := [];
     isLoading := false;
     direction := ltr;
     contentSize := Size.mk 0 0 |}.

(** Modelled from the spec: [getLayoutInfo] of [BaseLayout], not among the
    sources; the cache entry of the key, if any. *)
Definition getLayoutInfo (L : WaterfallLayout) (key : Key) : option LayoutInfo :=
  layoutInfos L !! key.

(** ** The build pass *)

(** [getNextColumnIndex]: the first column of least height.  The array has
    [numColumns >= 1] slots, so every index read is in range. *)
Definition getNextColumnIndex (columnHeights : list Z) : nat :=
  fold_left
    (fun minIndex i =>
       if (columnHeights !!! i) <? (columnHeights !!! minIndex) then i else minIndex)
    (seq 0 (length columnHeights)) 0%nat.

(** Lines 137-150: the height of an item and its [estimatedSize] flag. *)
Definition estimateHeight (L : WaterfallLayout) (ctx : InvalidationContext)
    (itemWidth : Z) (oldLayoutInfo : option LayoutInfo) (node : Node) : xnum * bool :=
  match oldLayoutInfo with
  | Some old =>
      (Num (Rect.height (rect old)), sizeChanged ctx || estimatedSize old)
  | None =>
      match props_width node, props_height node with
      | Some nodeWidth, Some nodeHeight =>
          if truthy nodeWidth && truthy nodeHeight then
            let scaledHeight := js_scale_round nodeWidth itemWidth nodeHeight in
            (xadd_z
               (xmax_z (Size.height (minItemSize L))
                  (xmin_bound (MaxSize.height (maxItemSize L)) scaledHeight))
               (itemPadding L),
             true)
          else (Num itemWidth, true)
      | _, _ => (Num itemWidth, true)
      end
  end.

(** The state of the loop over the collection: the running column heights
    and the cache.  [placed] is a ghost record of the column chosen for each
    node, in order; nothing reads it. *)
Record Pass : Type := mkPass {
  columnHeights : list Z;
  infos : gmap Key LayoutInfo;
  placed : list nat
}.

(** Lines 134-168: one turn of the loop. *)
Definition layoutNode (L : WaterfallLayout) (ctx : InvalidationContext)
    (itemWidth horizontalSpacing : Z) (p : Pass) (node : Node) : outcome Pass :=
  let key := node_key node in
  let oldLayoutInfo := infos p !! key in
  let '(height, estimatedSize) := estimateHeight L ctx itemWidth oldLayoutInfo node in
  match height with
  | Num height =>
      let column := getNextColumnIndex (columnHeights p) in
      let x := margin L + Z.of_nat column * (itemWidth + horizontalSpacing) in
      let y := columnHeights p !!! column in
      let rect := Rect.mk x y itemWidth height in
      let layoutInfo :=
        set_estimatedSize estimatedSize (newLayoutInfo (node_type node) key rect) in
      Done (mkPass
              (<[column := (columnHeights p !!! column)
                           + (Rect.height rect + Size.height (minSpace L))]>
                 (columnHeights p))
              (<[key := layoutInfo]> (infos p))
              (placed p ++ [column]))
  | _ => OffModel
  end.

Fixpoint layoutNodes (L : WaterfallLayout) (ctx : InvalidationContext)
    (itemWidth horizontalSpacing : Z) (nodes : list Node) (p : Pass) : outcome Pass :=
  match nodes with
  | [] => Done p
  | node :: rest =>
      let* p' := layoutNode L ctx itemWidth horizontalSpacing p node in
      layoutNodes L ctx itemWidth horizontalSpacing rest p'
  end.

(** [Math.max.apply(Math, columnHeights)] for the non-empty array of column
    heights.  An engine refuses an argument list beyond some length of its
    own (a RangeError once the columns number in the tens of thousands); the
    model has no such limit. *)
Definition max_of (l : list Z) : Z :=
  match l with
  | [] => 0
  | h :: t => fold_left Z.max t h
  end.

(** Lines 113-116. *)
Definition computeNumColumns (L : WaterfallLayout) (visibleWidth : Z) : xnum :=
  let columns :=
    js_floor_div visibleWidth (Size.width (minItemSize L) + Size.width (minSpace L)) in
  xmax_z 1 (xmin_bound (maxColumns L) columns).

(** Lines 119-123. *)
Definition computeItemWidth (L : WaterfallLayout) (visibleWidth numColumns : Z) : Z :=
  let availableWidth := visibleWidth - margin L * 2 in
  let width := availableWidth - Size.width (minSpace L) * (numColumns - 1) in
  let itemWidth := round_div width numColumns in
  Z.max (Size.width (minItemSize L))
        (min_bound (MaxSize.width (maxItemSize L)) itemWidth).

(** Line 128. *)
Definition computeHorizontalSpacing (L : WaterfallLayout)
    (visibleWidth numColumns itemWidth : Z) : Z :=
  let availableWidth := visibleWidth - margin L * 2 in
  round_div (availableWidth - numColumns * itemWidth) (Z.max 1 (numColumns - 1)).

(** Lines 113-169: the column geometry, then the loop over the collection.
    The result is [(numColumns, itemWidth, horizontalSpacing)] and the state
    the loop ends in.  [Array(n)] throws a RangeError unless [n] is a whole
    number below 2^32; the column count is at least 1 whenever it is a
    number. *)
Definition layoutPass (L : WaterfallLayout) (ctx : InvalidationContext)
    (v : Virtualizer) : outcome (Z * Z * Z * Pass) :=
  let visibleWidth := Rect.width (visibleRect v) in
  match computeNumColumns L visibleWidth with
  | Num numColumns =>
      let itemWidth := computeItemWidth L visibleWidth numColumns in
      let horizontalSpacing :=
        computeHorizontalSpacing L visibleWidth numColumns itemWidth in
      if 2 ^ 32 <=? numColumns then Throw RangeError
      else
        let columnHeights := replicate (Z.to_nat numColumns) (margin L) in
        let* p := layoutNodes L ctx itemWidth horizontalSpacing (collection L)
                    (mkPass columnHeights (layoutInfos L) []) in
        Done (numColumns, itemWidth, horizontalSpacing, p)
  | _ => Throw RangeError
  end.

(** Line 172. *)
Definition maxHeightOf (L : WaterfallLayout) (p : Pass) : Z :=
  max_of (columnHeights p) - Size.height (minSpace L) + margin L.

(** Lines 176-190: the loader, when the collection is loading. *)
Definition loaderRect (L : WaterfallLayout) (v : Virtualizer) (y : Z) : Rect.t :=
  let loaderY := y in
  let loaderHeight := 60 in
  let '(loaderY, loaderHeight) :=
    if Collection.size (collection L) =? 0 then
      (0, if truthy (Rect.height (visibleRect v))
          then Rect.height (visibleRect v) else 60)
    else (loaderY, loaderHeight) in
  Rect.mk 0 loaderY (Rect.width (visibleRect v)) loaderHeight.

Definition placeLoader (L : WaterfallLayout) (v : Virtualizer)
    (st : gmap Key LayoutInfo * Z) : gmap Key LayoutInfo * Z :=
  let '(m, y) := st in
  if isLoading L then
    let loader := newLayoutInfo "loader" (skey "loader") (loaderRect L v y) in
    (<[skey "loader" := loader]> m, Rect.maxY (rect loader))
  else (m, y).

(** Lines 192-197: the placeholder of an empty collection. *)
Definition placePlaceholder (L : WaterfallLayout) (v : Virtualizer)
    (st : gmap Key LayoutInfo * Z) : gmap Key LayoutInfo * Z :=
  let '(m, y) := st in
  if (Collection.size (collection L) =? 0) && negb (isLoading L) then
    let r := Rect.mk 0 0 (Rect.width (visibleRect v)) (Rect.height (visibleRect v)) in
    let placeholder := newLayoutInfo "placeholder" (skey "placeholder") r in
    (<[skey "placeholder" := placeholder]> m, Rect.maxY (rect placeholder))
  else (m, y).

(** [buildCollection], lines 111-200. *)
Definition buildCollection (ctx : InvalidationContext) (v : Virtualizer)
    (L : WaterfallLayout) : outcome WaterfallLayout :=
  let* built := layoutPass L ctx v in
  let '(numColumns, itemWidth, horizontalSpacing, p) := built in
  let maxHeight := maxHeightOf L p in
  let '(m, y) := placePlaceholder L v (placeLoader L v (infos p, maxHeight)) in
  Done (set_built numColumns itemWidth horizontalSpacing m
          (Size.mk (Rect.width (visibleRect v)) y) L).

(** ** validate *)

(** Lines 92-106: what [validate] deletes once a previous collection exists. *)
Definition removeStale (lastCollection : Collection.t) (L : WaterfallLayout)
    : WaterfallLayout :=
  let m :=
    fold_left
      (fun m key =>
         match Collection.getItem (collection L) key with
         | None => delete key m
         | Some _ => m
         end)
      (Collection.getKeys lastCollection) (layoutInfos L) in
  let m := if negb (isLoading L) then delete (skey "loader") m else m in
  let m := if 0 <? Collection.size (collection L)
           then delete (skey "placeholder") m else m in
  set_layoutInfos m L.

(** [validate], lines 87-109. *)
Definition validate (ctx : InvalidationContext) (v : Virtualizer)
    (L : WaterfallLayout) : outcome WaterfallLayout :=
  let L := set_collection (v_collection v) L in
  let* L := buildCollection ctx v L in
  let L :=
    match lastCollection L with
    | Some last => removeStale last L
    | None => L
    end in
  Done (set_lastCollection (Some (collection L)) L).

(** ** updateItemSize *)

(** The result of [updateItemSize]: the value returned, the layout
    afterwards, and the object that was taken out of the cache, in the state
    the method leaves it in ([None] when no entry was replaced). *)
Record Updated : Type := mkUpdated {
  returned : bool;
  after : WaterfallLayout;
  replaced : option LayoutInfo
}.

(** [updateItemSize], lines 202-220.  [size] is [None] for an absent
    argument.  Line 215 assigns to [layoutInfo], the object read at line 203,
    after line 213 has put [newLayoutInfo] in the cache in its place. *)
Definition updateItemSize (key : Key) (size : option Size.t)
    (L : WaterfallLayout) : Updated :=
  let layoutInfo := layoutInfos L !! key in
  match size, layoutInfo with
  | Some size, Some layoutInfo =>
      if negb (Size.height size =? Rect.height (rect layoutInfo)) then
        let newLayoutInfo := copy layoutInfo in
        let newLayoutInfo := set_rect_height (Size.height size) newLayoutInfo in
        let L := set_layoutInfos (<[key := newLayoutInfo]> (layoutInfos L)) L in
        let layoutInfo := set_estimatedSize false layoutInfo in
        mkUpdated true L (Some layoutInfo)
      else mkUpdated false L None
  | _, _ => mkUpdated false L None
  end.

(** ** The navigator *)

Section Navigator.

(** [_findClosest] is a method of [BaseLayout], which is not among the
    sources: the navigator is written against any function of the cache,
    the reference rectangle and the probe rectangle. *)
Variable _findClosest :
  gmap Key LayoutInfo -> Rect.t -> Rect.t -> option LayoutInfo.

(** [getClosestRight], lines 233-249.  Reading [layoutInfo.rect] of an
    undefined [layoutInfo] is a TypeError. *)
Definition getClosestRight (v : Virtualizer) (L : WaterfallLayout) (key : Key)
    : outcome (option Key) :=
  match getLayoutInfo L key with
  | None => Throw TypeError
  | Some layoutInfo =>
      let r := rect layoutInfo in
      let probe :=
        Rect.mk (Rect.maxX r + 1) (Rect.y r)
                (Rect.width r + horizontalSpacing L) (Rect.height r) in
      let key := li_key <$> _findClosest (layoutInfos L) r probe in
      if falsy_key key then
        let probe :=
          Rect.mk (Rect.maxX r + 1) 0
                  (Rect.width r + horizontalSpacing L)
                  (Size.height (v_contentSize v)) in
        Done (li_key <$> _findClosest (layoutInfos L) r probe)
      else Done key
  end.

(** [getClosestLeft], lines 251-263. *)
Definition getClosestLeft (v : Virtualizer) (L : WaterfallLayout) (key : Key)
    : outcome (option Key) :=
  match getLayoutInfo L key with
  | None => Throw TypeError
  | Some layoutInfo =>
      let r := rect layoutInfo in
      let probe :=
        Rect.mk (Rect.x r - Rect.width r - horizontalSpacing L - 1) (Rect.y r)
                (Rect.width r + horizontalSpacing L) (Rect.height r) in
      let key := li_key <$> _findClosest (layoutInfos L) r probe in
      if falsy_key key then
        let probe :=
          Rect.mk (Rect.x r - Rect.width r - horizontalSpacing L - 1) 0
                  (Rect.width r + horizontalSpacing L)
                  (Size.height (v_contentSize v)) in
        Done (li_key <$> _findClosest (layoutInfos L) r probe)
      else Done key
  end.

(** [getKeyRightOf] and [getKeyLeftOf], lines 265-271. *)
Definition getKeyRightOf (v : Virtualizer) (L : WaterfallLayout) (key : Key)
    : outcome (option Key) :=
  match direction L with
  | rtl => getClosestLeft v L key
  | ltr => getClosestRight v L key
  end.

Definition getKeyLeftOf (v : Virtualizer) (L : WaterfallLayout) (key : Key)
    : outcome (option Key) :=
  match direction L with
  | rtl => getClosestRight v L key
  | ltr => getClosestLeft v L key
  end.

End Navigator.

(** The squared distance between the top-left corners of two rectangles. *)
Definition cornerDistance2 (a b : Rect.t) : Z :=
  (Rect.x a - Rect.x b) ^ 2 + (Rect.y a - Rect.y b) ^ 2.

(** One candidate against the best so far. *)
Definition closerOf (target probe : Rect.t) (best : option LayoutInfo)
    (cur : LayoutInfo) : option LayoutInfo :=
  if Rect.intersects (rect cur) probe then
    match best with
    | None => Some cur
    | Some b =>
        if cornerDistance2 (rect cur) target <? cornerDistance2 (rect b) target
        then Some cur else best
    end
  else best.

(** Modelled from the spec: [_findClosest] of [BaseLayout], which is not
    among the sources.  Among the cache entries whose rectangle intersects
    the probe, the one closest to the reference rectangle, by the distance
    between top-left corners; the first one met wins a tie.  Only the closed
    examples below use it. *)
Definition findClosest (m : gmap Key LayoutInfo) (target probe : Rect.t)
    : option LayoutInfo :=
  fold_left (closerOf target probe) (map snd (map_to_list m)) None.

(** ** Notions used to state the properties of the build *)

(** The two keys the layout keeps for itself. *)
Definition synthetic (k : Key) : Prop :=
  k = skey "loader" \/ k = skey "placeholder".

(** The cache follows the collection validated last: before the first
    [validate] it is empty; afterwards the previous collection has no item
    under a synthetic key, and every entry belongs to an item of the previous
    collection or is synthetic. *)
Definition tracked (L : WaterfallLayout) : Prop :=
  match lastCollection L with
  | None => layoutInfos L = ∅
  | Some last =>
      (forall k, In k (Collection.getKeys last) -> ~ synthetic k) /\
      (forall k, is_Some (layoutInfos L !! k) ->
                 In k (Collection.getKeys last) \/ synthetic k)
  end.

(** A configuration and a cache without negative lengths. *)
Definition nonnegative (L : WaterfallLayout) : Prop :=
  0 <= margin L /\
  0 <= Size.height (minSpace L) /\
  0 <= Size.width (minItemSize L) /\
  0 <= Size.height (minItemSize L) + itemPadding L /\
  forall k e, layoutInfos L !! k = Some e -> 0 <= Rect.height (rect e).

(** The state of the loop with respect to the keys [S] placed so far: the
    columns start at the margin; every entry placed sits in a column, below
    the margin, and ends, spacing included, above the running height of its
    column; two entries placed in one column are a spacing apart. *)
Definition stacked (L : WaterfallLayout) (iw hs : Z) (p : Pass)
    (S : Key -> Prop) : Prop :=
  columnHeights p <> [] /\
  (forall c, (c < length (columnHeights p))%nat ->
             margin L <= columnHeights p !!! c) /\
  (forall k e, infos p !! k = Some e -> 0 <= Rect.height (rect e)) /\
  (forall k, S k ->
     exists e c,
       infos p !! k = Some e /\
       (c < length (columnHeights p))%nat /\
       Rect.x (rect e) = margin L + Z.of_nat c * (iw + hs) /\
       margin L <= Rect.y (rect e) /\
       Rect.maxY (rect e) + Size.height (minSpace L) <= columnHeights p !!! c) /\
  (iw + hs <> 0 ->
   forall k1 k2 e1 e2,
     S k1 -> S k2 -> k1 <> k2 ->
     infos p !! k1 = Some e1 -> infos p !! k2 = Some e2 ->
     Rect.x (rect e1) = Rect.x (rect e2) ->
     Rect.maxY (rect e1) + Size.height (minSpace L) <= Rect.y (rect e2) \/
     Rect.maxY (rect e2) + Size.height (minSpace L) <= Rect.y (rect e1)).

(** The entries of the keys [S] placed so far sit on the column grid. *)
Definition onGrid (L : WaterfallLayout) (iw hs : Z) (p : Pass) (S : Key -> Prop)
    : Prop :=
  columnHeights p <> [] /\
  forall k, S k ->
    exists e c,
      infos p !! k = Some e /\
      (c < length (columnHeights p))%nat /\
      li_key e = k /\
      Rect.x (rect e) = margin L + Z.of_nat c * (iw + hs) /\
      Rect.width (rect e) = iw.

(** The states a layout goes through: it is constructed, its owner sets
    [isLoading] and [direction], and [validate] and [updateItemSize] are
    called on it.  The collections validated have no item under a synthetic
    key. *)
Inductive reachable : WaterfallLayout -> Prop :=
  | reach_new (options : WaterfallLayoutOptions) :
      reachable (new_WaterfallLayout options)
  | reach_isLoading (b : bool) (L : WaterfallLayout) :
      reachable L -> reachable (set_isLoading b L)
  | reach_direction (d : Direction) (L : WaterfallLayout) :
      reachable L -> reachable (set_direction d L)
  | reach_validate (ctx : InvalidationContext) (v : Virtualizer)
        (L L' : WaterfallLayout) :
      reachable L ->
      (forall k, In k (Collection.getKeys (v_collection v)) -> ~ synthetic k) ->
      validate ctx v L = Done L' ->
      reachable L'
  | reach_updateItemSize (key : Key) (size : option Size.t) (L : WaterfallLayout) :
      reachable L -> reachable (after (updateItemSize key size L)).

(** ** Sample data used by the closed examples *)

Definition item (k : string) : Node := mkNode (skey k) "item" None None.

Definition defaultLayout : WaterfallLayout := new_WaterfallLayout noOptions.

Definition viewport (c : Collection.t) (w h : Z) : Virtualizer :=
  mkVirtualizer c (Rect.mk 0 0 w h) (Size.mk w h).

Definition noResize : InvalidationContext := mkInvalidationContext false.

(** A cache with one estimated entry, as a first build leaves it. *)
Definition oneCard : WaterfallLayout :=
  set_layoutInfos
    {[ skey "a" := mkLayoutInfo "item" (skey "a") (Rect.mk 24 24 240 240) true ]}
    defaultLayout.

(** Two cards side by side. *)
Definition twoCards : WaterfallLayout :=
  set_layoutInfos
    (<[ skey "a" := mkLayoutInfo "item" (skey "a") (Rect.mk 24 24 240 240) true ]>
       {[ skey "b" := mkLayoutInfo "item" (skey "b") (Rect.mk 280 24 240 240) true ]})
    (set_built 3 240 16 ∅ (Size.mk 800 312) defaultLayout).

(** The layout after a first [validate] over the cards [a] and [b]. *)
Definition afterTwoCards : WaterfallLayout :=
  match validate noResize (viewport [item "a"; item "b"] 800 600) defaultLayout with
  | Done L => L
  | _ => defaultLayout
  end.

(** The layout after a first [validate] over an empty collection that is not
    loading. *)
Definition afterEmpty : WaterfallLayout :=
  match validate noResize (viewport [] 800 600) defaultLayout with
  | Done L => L
  | _ => defaultLayout
  end.

(** A loading layout over one card. *)
Definition loadingOneCard : WaterfallLayout :=
  set_isLoading true (set_collection [item "a"] defaultLayout).

(** Column heights after one card of height 240. *)
Definition threeColumns : list Z := [288; 24; 24].

(** Four cards without intrinsic size, before their first build. *)
Definition fourCards : WaterfallLayout :=
  set_collection [item "a"; item "b"; item "c"; item "d"] defaultLayout.

Definition viewport800 : Virtualizer :=
  viewport [item "a"; item "b"; item "c"; item "d"] 800 600.

(** The loop state and the layout after the build of the four cards. *)
Definition fourCardsPass : Pass :=
  match layoutPass fourCards noResize viewport800 with
  | Done (_, _, _, p) => p
  | _ => mkPass [] ∅ []
  end.

Definition fourCardsBuilt : WaterfallLayout :=
  match buildCollection noResize viewport800 fourCards with
  | Done L => L
  | _ => fourCards
  end.

(** One card, measured at height 300, laid out again. *)
Definition oneCardCollection : WaterfallLayout :=
  set_collection [item "a"] oneCard.

Definition oneCardRebuilt : WaterfallLayout :=
  match buildCollection noResize (viewport [item "a"] 800 600) oneCardCollection with
  | Done L => L
  | _ => oneCardCollection
  end.

Definition oneCardMeasuredRebuilt : WaterfallLayout :=
  match buildCollection noResize (viewport [item "a"] 800 600)
          (after (updateItemSize (skey "a") (Some (Size.mk 240 300)) oneCardCollection))
  with
  | Done L => L
  | _ => oneCardCollection
  end.

(** One card whose height was measured, so that its entry is not marked as
    estimated, and the layout after the viewport grew to 1000 pixels. *)
Definition measuredCard : WaterfallLayout :=
  set_collection [item "a"]
    (set_layoutInfos
       {[ skey "a" := mkLayoutInfo "item" (skey "a") (Rect.mk 24 24 240 300) false ]}
       defaultLayout).

Definition oneCardResized : WaterfallLayout :=
  match buildCollection (mkInvalidationContext true) (viewport [item "a"] 1000 600)
          measuredCard with
  | Done L => L
  | _ => measuredCard
  end.

(** A card with the intrinsic size 363 x 352, before its first build, and
    the layout after that build. *)
Definition photo : Node := mkNode (skey "p") "item" (Some 363) (Some 352).

Definition photoCard : WaterfallLayout := set_collection [photo] defaultLayout.

Definition photoBuilt : WaterfallLayout :=
  match buildCollection noResize (viewport [photo] 800 600) photoCard with
  | Done L => L
  | _ => photoCard
  end.

(** A layout without minimum item width and without spacing. *)
Definition noMinimum : WaterfallLayout :=
  new_WaterfallLayout
    (mkOptions (Some (Size.mk 0 0)) None (Some (Size.mk 0 0)) None None).

(** An empty collection, built while not loading. *)
Definition emptyBuilt : WaterfallLayout :=
  match buildCollection noResize (viewport [] 800 600) defaultLayout with
  | Done L => L
  | _ => defaultLayout
  end.

(** ** Proof steps for concrete runs of the loop *)

(** Evaluate the column heights and the chosen columns of the loop state,
    leaving the cache as a chain of inserts. *)
Ltac eval_pass :=
  cbv zeta; cbn [bind columnHeights infos placed];
  match goal with
  | |- context [mkPass ?h ?m ?pl] =>
      let h' := eval vm_compute in h in
      let pl' := eval vm_compute in pl in
      change (mkPass h m pl) with (mkPass h' m pl')
  end.

Ltac fresh_key :=
  cbn [infos]; repeat (rewrite lookup_insert_ne by congruence); apply lookup_empty.

(** * Properties *)

(** ** Numbers *)

Lemma js_floor_div_pos a b : 0 < b -> js_floor_div a b = Num (a / b).
Proof.
  intros Hb. unfold js_floor_div.
  destruct (Z.eqb_spec b 0); [lia | reflexivity].
Qed.

Lemma js_scale_round_nonzero w a h :
  h <> 0 ->
  js_scale_round w a h
  = Num (Double.round
           (Double.mul (Double.of_Z w)
              (Double.div (Double.of_Z a) (Double.of_Z h)))).
Proof.
  intros Hh. unfold js_scale_round.
  destruct (Z.eqb_spec h 0); [contradiction | reflexivity].
Qed.

(** ** Rounding to a double *)

(** [rne_div] yields an integer nearest to the quotient. *)
Lemma Double_rne_div_nearest n d :
  0 < d -> 2 * Z.abs (n - d * Double.rne_div n d) <= d.
Proof.
  intros Hd. unfold Double.rne_div.
  pose proof (Z.div_mod n d ltac:(lia)) as E.
  pose proof (Z.mod_pos_bound n d Hd) as B.
  destruct (Z.compare_spec (2 * (n mod d)) d); [destruct (Z.even (n / d)) | |]; nia.
Qed.

Lemma Double_rne_div_one n : Double.rne_div n 1 = n.
Proof.
  unfold Double.rne_div. rewrite Z.div_1_r, Z.mod_1_r. reflexivity.
Qed.

(** A quotient between [c] and [2 * c] is rounded to an integer in that
    range. *)
Lemma Double_rne_div_range n d c :
  0 < d -> 0 < c -> c * d <= Z.abs n <= 2 * c * d ->
  c <= Z.abs (Double.rne_div n d) <= 2 * c.
Proof.
  intros Hd Hc Hn.
  pose proof (Double_rne_div_nearest n d Hd) as Hr.
  set (m := Double.rne_div n d) in *. clearbody m.
  nia.
Qed.

(** The exponent chosen by [fl] brackets the quotient. *)
Lemma Double_fl_bracket n d :
  n <> 0 -> 0 < d ->
  let k := Z.log2 (Z.abs n) - Z.log2 d in
  let above := if 0 <=? k then d * 2 ^ k <=? Z.abs n
               else d <=? Z.abs n * 2 ^ (- k) in
  let k' := if above then k else k - 1 in
  (0 <= k' -> d * 2 ^ k' <= Z.abs n < d * 2 ^ (k' + 1)) /\
  (k' < 0 -> d <= Z.abs n * 2 ^ (- k') < 2 * d).
Proof.
  intros Hn Hd.
  pose proof (Z.log2_spec (Z.abs n) ltac:(lia)) as [Ha1 Ha2].
  pose proof (Z.log2_spec d Hd) as [Hb1 Hb2].
  pose proof (Z.log2_nonneg (Z.abs n)) as Ha0.
  pose proof (Z.log2_nonneg d) as Hb0.
  set (a := Z.log2 (Z.abs n)) in *. set (b := Z.log2 d) in *.
  clearbody a b. cbv zeta.
  destruct (Z.leb_spec 0 (a - b)) as [Hk | Hk].
  - assert (Ea : 2 ^ Z.succ a = 2 ^ Z.succ b * 2 ^ (a - b)).
    { rewrite <- Z.pow_add_r by lia. f_equal. lia. }
    assert (Hp : 0 < 2 ^ (a - b)) by (apply Z.pow_pos_nonneg; lia).
    destruct (Z.leb_spec (d * 2 ^ (a - b)) (Z.abs n)) as [Hab | Hab].
    + split; [intros _ | lia]. split; [assumption |].
      replace (a - b + 1) with (Z.succ (a - b)) by lia.
      rewrite Z.pow_succ_r by lia.
      rewrite (Z.pow_succ_r 2 b) in Ea by lia. nia.
    + destruct (Z.eq_dec (a - b) 0) as [E0 | E0].
      * rewrite E0 in *. change (0 - 1) with (-1). split; [lia | intros _].
        change (- -1) with 1. change (2 ^ 1) with 2.
        change (2 ^ 0) with 1 in *.
        assert (a = b) by lia. subst b. rewrite Z.pow_succ_r in Hb2 by lia.
        rewrite Z.mul_1_r in Hab. lia.
      * split; [intros _ | lia].
        replace (a - b - 1 + 1) with (a - b) by lia.
        split; [| assumption].
        assert (E1 : 2 ^ a = 2 ^ Z.succ b * 2 ^ (a - b - 1)).
        { rewrite <- Z.pow_add_r by lia. f_equal. lia. }
        assert (0 < 2 ^ (a - b - 1)) by (apply Z.pow_pos_nonneg; lia).
        nia.
  - assert (Hp : 0 < 2 ^ (- (a - b))) by (apply Z.pow_pos_nonneg; lia).
    assert (Eb : 2 ^ Z.succ b = 2 ^ Z.succ a * 2 ^ (- (a - b))).
    { rewrite <- Z.pow_add_r by lia. f_equal. lia. }
    destruct (Z.leb_spec d (Z.abs n * 2 ^ (- (a - b)))) as [Hab | Hab].
    + split; [lia | intros _]. split; [assumption |].
      rewrite (Z.pow_succ_r 2 b) in Eb by lia.
      pose proof (proj1 (Z.mul_lt_mono_pos_r (2 ^ (- (a - b))) _ _ Hp) Ha2). lia.
    + split; [lia | intros _].
      replace (- (a - b - 1)) with (Z.succ (- (a - b))) by lia.
      rewrite Z.pow_succ_r by lia.
      split; [| lia].
      rewrite Z.pow_succ_r in Hb2 by lia.
      assert (Eb' : 2 ^ b = 2 ^ a * 2 ^ (- (a - b))).
      { rewrite <- Z.pow_add_r by lia. f_equal. lia. }
      pose proof (Z.mul_le_mono_nonneg_r _ _ (2 ^ (- (a - b))) ltac:(lia) Ha1). lia.
Qed.

(** [fl n d] is a double nearest to [n / d]: its mantissa has 53 bits (or is
    2^53, the next binade's least number), and it differs from the quotient
    by at most half a unit of its last place. *)
Lemma Double_fl_nearest n d :
  n <> 0 -> 0 < d ->
  let x := Double.fl n d in
  2 ^ 52 <= Z.abs (Double.mant x) <= 2 ^ 53 /\
  (if 0 <=? Double.expo x
   then 2 * Z.abs (n - d * 2 ^ Double.expo x * Double.mant x)
        <= d * 2 ^ Double.expo x
   else 2 * Z.abs (n * 2 ^ (- Double.expo x) - d * Double.mant x) <= d).
Proof.
  intros Hn Hd. cbv zeta.
  pose proof (Double_fl_bracket n d Hn Hd) as Hbr. cbv zeta in Hbr.
  unfold Double.fl. destruct (Z.eqb_spec n 0); [contradiction |].
  cbv zeta.
  set (k' := if (if 0 <=? Z.log2 (Z.abs n) - Z.log2 d
                 then d * 2 ^ (Z.log2 (Z.abs n) - Z.log2 d) <=? Z.abs n
                 else d <=? Z.abs n * 2 ^ (- (Z.log2 (Z.abs n) - Z.log2 d)))
             then Z.log2 (Z.abs n) - Z.log2 d
             else Z.log2 (Z.abs n) - Z.log2 d - 1) in *.
  clearbody k'. destruct Hbr as [Hge Hlt].
  destruct (Z.leb_spec 0 (k' - 52)) as [He | He]; cbn [Double.mant Double.expo].
  - assert (Hp : 0 < 2 ^ (k' - 52)) by (apply Z.pow_pos_nonneg; lia).
    destruct (Z.leb_spec 0 (k' - 52)); [| lia].
    split; [| apply Double_rne_div_nearest; nia].
    change (2 ^ 53) with (2 * 2 ^ 52).
    apply Double_rne_div_range; [nia | lia |].
    specialize (Hge ltac:(lia)).
    assert (E1 : 2 ^ k' = 2 ^ 52 * 2 ^ (k' - 52)).
    { rewrite <- Z.pow_add_r by lia. f_equal. lia. }
    assert (E2 : 2 ^ (k' + 1) = 2 * 2 ^ 52 * 2 ^ (k' - 52)).
    { replace (k' + 1) with (Z.succ k') by lia. rewrite Z.pow_succ_r by lia. lia. }
    rewrite E1, E2 in Hge. nia.
  - assert (Hp : 0 < 2 ^ (- (k' - 52))) by (apply Z.pow_pos_nonneg; lia).
    destruct (Z.leb_spec 0 (k' - 52)); [lia |].
    split; [| apply Double_rne_div_nearest; assumption].
    change (2 ^ 53) with (2 * 2 ^ 52).
    apply Double_rne_div_range; [lia | lia |].
    rewrite Z.abs_mul, (Z.abs_eq (2 ^ _)) by lia.
    destruct (Z.le_gt_cases 0 k') as [H0 | H0].
    + specialize (Hge H0).
      assert (E1 : 2 ^ 52 = 2 ^ k' * 2 ^ (- (k' - 52))).
      { rewrite <- Z.pow_add_r by lia. f_equal. lia. }
      replace (k' + 1) with (Z.succ k') in Hge by lia.
      rewrite Z.pow_succ_r in Hge by lia.
      assert (0 < 2 ^ k') by (apply Z.pow_pos_nonneg; lia).
      rewrite E1. nia.
    + specialize (Hlt H0).
      assert (E1 : 2 ^ (- (k' - 52)) = 2 ^ 52 * 2 ^ (- k')).
      { rewrite <- Z.pow_add_r by lia. f_equal. lia. }
      rewrite E1. nia.
Qed.

(** A whole number below 2^53 is a double, and [Math.round] gives it back. *)
Lemma Double_of_Z_exact z :
  Z.abs z < 2 ^ 53 ->
  Double.expo (Double.of_Z z) <= 0 /\
  Double.mant (Double.of_Z z) = z * 2 ^ (- Double.expo (Double.of_Z z)).
Proof.
  intros Hz. unfold Double.of_Z, Double.fl.
  destruct (Z.eqb_spec z 0) as [-> | Hne]; [simpl; lia |].
  change (Z.log2 1) with 0. rewrite Z.sub_0_r.
  assert (Hk : 0 <= Z.log2 (Z.abs z) < 53).
  { split; [apply Z.log2_nonneg |]. apply Z.log2_lt_pow2; lia. }
  destruct (Z.leb_spec 0 (Z.log2 (Z.abs z))) as [_ | ?]; [| lia].
  rewrite Z.mul_1_l.
  pose proof (Z.log2_spec (Z.abs z) ltac:(lia)) as [Hlo _].
  destruct (Z.leb_spec (2 ^ Z.log2 (Z.abs z)) (Z.abs z)) as [_ | ?]; [| lia].
  destruct (Z.leb_spec 0 (Z.log2 (Z.abs z) - 52)) as [H0 | H0]; cbn [Double.mant Double.expo].
  - assert (Z.log2 (Z.abs z) = 52) as -> by lia.
    change (52 - 52) with 0. rewrite Z.mul_1_l. simpl (- 0). rewrite Z.pow_0_r, Z.mul_1_r.
    split; [lia | apply Double_rne_div_one].
  - split; [lia | apply Double_rne_div_one].
Qed.

Lemma Double_round_of_Z z : Z.abs z < 2 ^ 53 -> Double.round (Double.of_Z z) = z.
Proof.
  intros Hz. destruct (Double_of_Z_exact z Hz) as [He Hm].
  unfold Double.round. rewrite Hm.
  set (e := Double.expo (Double.of_Z z)) in *. clearbody e.
  destruct (Z.leb_spec 0 e) as [H0 | H0].
  - assert (e = 0) as -> by lia. simpl. lia.
  - assert (Hp : 0 < 2 ^ (- e)) by (apply Z.pow_pos_nonneg; lia).
    replace (1 - e) with (Z.succ (- e)) by lia. rewrite Z.pow_succ_r by lia.
    replace (2 * (z * 2 ^ (- e)) + 2 ^ (- e)) with ((2 * z + 1) * 2 ^ (- e)) by lia.
    rewrite Z.div_mul_cancel_r by lia.
    symmetry. apply Z.div_unique with (r := 1); lia.
Qed.

(** A zero divisor is visible in the model: the result is not a number. *)
Lemma js_scale_round_zero w a z : js_scale_round w a 0 <> Num z.
Proof.
  unfold js_scale_round. simpl.
  destruct (a =? 0); [discriminate |].
  destruct (w =? 0); [discriminate |].
  destruct (0 <? w * a); discriminate.
Qed.

Lemma truthy_nonzero n : truthy n = true <-> n <> 0.
Proof.
  unfold truthy. destruct (Z.eqb_spec n 0); simpl; split; intros; try congruence; lia.
Qed.

Lemma xmin_bound_num b z : xmin_bound b (Num z) = Num (min_bound b z).
Proof. destruct b; reflexivity. Qed.

(** ** Column count *)

Lemma computeNumColumns_pos L w :
  0 < Size.width (minItemSize L) + Size.width (minSpace L) ->
  computeNumColumns L w =
    Num (Z.max 1 (min_bound (maxColumns L)
                    (w / (Size.width (minItemSize L) + Size.width (minSpace L))))).
Proof.
  intros Hd. unfold computeNumColumns.
  rewrite js_floor_div_pos by assumption.
  rewrite xmin_bound_num. reflexivity.
Qed.

Lemma min_bound_mono b z1 z2 : z1 <= z2 -> min_bound b z1 <= min_bound b z2.
Proof. destruct b; simpl; lia. Qed.

(** C6: for a configuration with [minItemSize.width + minSpace.width > 0]
    and [maxColumns >= 1] (possibly [Infinity]), the column count computed by
    the build pass is a number for every viewport width, it does not decrease
    when the viewport width grows, and it lies between 1 and [maxColumns]. *)
Theorem numColumns_monotone_in_range (L : WaterfallLayout) (w1 w2 : Z) :
  0 < Size.width (minItemSize L) + Size.width (minSpace L) ->
  le_bound 1 (maxColumns L) ->
  w1 <= w2 ->
  exists n1 n2,
    computeNumColumns L w1 = Num n1 /\
    computeNumColumns L w2 = Num n2 /\
    n1 <= n2 /\
    (1 <= n1 /\ le_bound n1 (maxColumns L)) /\
    (1 <= n2 /\ le_bound n2 (maxColumns L)).
Proof.
  intros Hd Hmax Hw.
  set (d := Size.width (minItemSize L) + Size.width (minSpace L)) in *.
  exists (Z.max 1 (min_bound (maxColumns L) (w1 / d))),
         (Z.max 1 (min_bound (maxColumns L) (w2 / d))).
  rewrite !computeNumColumns_pos by assumption. fold d.
  assert (Hq : w1 / d <= w2 / d) by (apply Z.div_le_mono; lia).
  pose proof (min_bound_mono (maxColumns L) _ _ Hq) as Hm.
  repeat split; try lia.
  - destruct (maxColumns L) as [m|]; simpl in *; [lia | exact I].
  - destruct (maxColumns L) as [m|]; simpl in *; [lia | exact I].
Qed.

Lemma numColumns_monotone_in_range_witness :
  exists n1 n2,
    computeNumColumns defaultLayout 500 = Num n1 /\
    computeNumColumns defaultLayout 800 = Num n2 /\
    n1 <= n2 /\
    (1 <= n1 /\ le_bound n1 (maxColumns defaultLayout)) /\
    (1 <= n2 /\ le_bound n2 (maxColumns defaultLayout)).
Proof.
  apply (numColumns_monotone_in_range defaultLayout 500 800).
  - simpl. lia.
  - simpl. exact I.
  - lia.
Defined.

(** ** Item heights *)

(** The height of an item is always a number: no run of the loop leaves the
    model. *)
Lemma estimateHeight_finite L ctx itemWidth old node :
  exists h, fst (estimateHeight L ctx itemWidth old node) = Num h.
Proof.
  unfold estimateHeight.
  destruct old as [old|]; [eexists; reflexivity |].
  destruct (props_width node) as [w|]; [| eexists; reflexivity].
  destruct (props_height node) as [h|]; [| eexists; reflexivity].
  destruct (truthy w && truthy h) eqn:Hg; [| eexists; reflexivity].
  apply andb_true_iff in Hg as [_ Hh]. apply truthy_nonzero in Hh.
  rewrite js_scale_round_nonzero by assumption.
  rewrite xmin_bound_num. simpl. eexists; reflexivity.
Qed.

(** C10: for an item with no prior cache entry, the aspect-ratio branch is
    taken exactly when [props.width] and [props.height] are both present and
    both nonzero; the divisor of its scaling is then nonzero, so that the
    scaled height is a number and not the outcome of a division by zero, and
    the height is that number, clamped, plus the padding.  In every other
    case (a missing or zero width or height) the height is the square
    fallback [itemWidth].  In both cases the entry is marked as estimated. *)
Theorem aspect_branch_divisor_nonzero (L : WaterfallLayout)
    (ctx : InvalidationContext) (itemWidth : Z) (node : Node) :
  match props_width node, props_height node with
  | Some w, Some h =>
      if negb (w =? 0) && negb (h =? 0) then
        h <> 0 /\
        exists scaledHeight,
          js_scale_round w itemWidth h = Num scaledHeight /\
          estimateHeight L ctx itemWidth None node =
            (Num (Z.max (Size.height (minItemSize L))
                    (min_bound (MaxSize.height (maxItemSize L)) scaledHeight)
                  + itemPadding L), true)
      else estimateHeight L ctx itemWidth None node = (Num itemWidth, true)
  | _, _ => estimateHeight L ctx itemWidth None node = (Num itemWidth, true)
  end.
Proof.
  unfold estimateHeight.
  destruct (props_width node) as [w|]; [| reflexivity].
  destruct (props_height node) as [h|]; [| reflexivity].
  unfold truthy.
  destruct (negb (w =? 0) && negb (h =? 0)) eqn:Hg; [| reflexivity].
  apply andb_true_iff in Hg as [_ Hh].
  assert (Hne : h <> 0).
  { destruct (Z.eqb_spec h 0); [discriminate | assumption]. }
  split; [assumption |].
  rewrite js_scale_round_nonzero by assumption.
  eexists. split; [reflexivity |].
  rewrite xmin_bound_num. reflexivity.
Qed.

(** The scaled height follows the roundings of the source: a card of
    363 x 352 at item width 240 scales to 247.49999999999997 and so to 247,
    where the exact quotient 247.5 would give 248; likewise 75 x 50 at item
    width 301 scales to 451, not 452. *)
Lemma js_scale_round_363_352 : js_scale_round 363 240 352 = Num 247.
Proof. vm_compute. reflexivity. Qed.

Lemma js_scale_round_75_50 : js_scale_round 75 301 50 = Num 451.
Proof. vm_compute. reflexivity. Qed.

Lemma estimateHeight_363_352 :
  estimateHeight defaultLayout noResize 240 None
    (mkNode (skey "p") "item" (Some 363) (Some 352))
  = (Num 303, true).
Proof. vm_compute. reflexivity. Qed.

Lemma estimateHeight_75_50 :
  estimateHeight defaultLayout noResize 301 None
    (mkNode (skey "p") "item" (Some 75) (Some 50))
  = (Num 507, true).
Proof. vm_compute. reflexivity. Qed.

(** ** updateItemSize *)

(** What the method does when the measured height differs: the cache gets a
    copy of the entry with the new height, and the object taken out of the
    cache gets [estimatedSize = false]. *)
Lemma updateItemSize_changed key s li L :
  layoutInfos L !! key = Some li ->
  Size.height s <> Rect.height (rect li) ->
  updateItemSize key (Some s) L =
    mkUpdated true
      (set_layoutInfos
         (<[key := mkLayoutInfo (li_type li) (li_key li)
                     (Rect.mk (Rect.x (rect li)) (Rect.y (rect li))
                        (Rect.width (rect li)) (Size.height s))
                     (estimatedSize li)]> (layoutInfos L)) L)
      (Some (set_estimatedSize false li)).
Proof.
  intros Hli Hne. unfold updateItemSize. rewrite Hli.
  destruct (Z.eqb_spec (Size.height s) (Rect.height (rect li))); [contradiction |].
  reflexivity.
Qed.

(** C1: with the entry [a -> (24, 24, 240, 240), estimatedSize = true] in
    the cache, [updateItemSize(a, (240, 300))] returns [true] and replaces the
    entry by one with the same key and position and height 300, but the new
    entry still has [estimatedSize = true]: the assignment of [false] went to
    the object that was replaced. *)
Theorem updateItemSize_keeps_estimated_flag :
  let r := updateItemSize (skey "a") (Some (Size.mk 240 300)) oneCard in
  returned r = true /\
  layoutInfos (after r) !! skey "a" =
    Some (mkLayoutInfo "item" (skey "a") (Rect.mk 24 24 240 300) true) /\
  replaced r =
    Some (mkLayoutInfo "item" (skey "a") (Rect.mk 24 24 240 240) false).
Proof.
  assert (Hli : layoutInfos oneCard !! skey "a" =
                Some (mkLayoutInfo "item" (skey "a") (Rect.mk 24 24 240 240) true))
    by apply lookup_singleton_eq.
  cbv zeta.
  rewrite (updateItemSize_changed _ (Size.mk 240 300) _ _ Hli) by (simpl; lia).
  simpl. rewrite lookup_insert_eq. auto.
Qed.

(** C7: [updateItemSize] returns [false] and leaves the whole layout, and so
    every cache entry, as it was (and writes to no object) when the size is
    absent, when the key has no cache entry, or when the measured height is
    the cached height. *)
Theorem updateItemSize_noop (key : Key) (size : option Size.t) (L : WaterfallLayout) :
  (size = None \/
   layoutInfos L !! key = None \/
   exists s li, size = Some s /\ layoutInfos L !! key = Some li /\
                Size.height s = Rect.height (rect li)) ->
  updateItemSize key size L = mkUpdated false L None.
Proof.
  intros [Hs | [Hk | (s & li & Hs & Hk & Hh)]]; unfold updateItemSize.
  - rewrite Hs. reflexivity.
  - rewrite Hk. destruct size; reflexivity.
  - rewrite Hs, Hk, Hh, Z.eqb_refl. reflexivity.
Qed.

Lemma updateItemSize_noop_witness :
  updateItemSize (skey "a") (Some (Size.mk 240 240)) oneCard
  = mkUpdated false oneCard None.
Proof.
  apply (updateItemSize_noop (skey "a") (Some (Size.mk 240 240)) oneCard).
  right. right.
  exists (Size.mk 240 240),
         (mkLayoutInfo "item" (skey "a") (Rect.mk 24 24 240 240) true).
  split; [reflexivity |]. split; [| reflexivity].
  apply lookup_singleton_eq.
Defined.

(** ** The navigator *)

Section NavigatorFacts.

Variable closest : gmap Key LayoutInfo -> Rect.t -> Rect.t -> option LayoutInfo.

(** The closest-item queries read the cache, the spacing and the content
    height, and not the direction. *)
Lemma getClosestRight_direction d v L key :
  getClosestRight closest v (set_direction d L) key = getClosestRight closest v L key.
Proof. reflexivity. Qed.

Lemma getClosestLeft_direction d v L key :
  getClosestLeft closest v (set_direction d L) key = getClosestLeft closest v L key.
Proof. reflexivity. Qed.

(** A key with a cache entry: the queries return. *)
Lemma getClosestRight_returns v L key li :
  layoutInfos L !! key = Some li ->
  exists r, getClosestRight closest v L key = Done r.
Proof.
  intros Hli. unfold getClosestRight, getLayoutInfo. rewrite Hli.
  destruct (falsy_key _); eexists; reflexivity.
Qed.

Lemma getClosestLeft_returns v L key li :
  layoutInfos L !! key = Some li ->
  exists r, getClosestLeft closest v L key = Done r.
Proof.
  intros Hli. unfold getClosestLeft, getLayoutInfo. rewrite Hli.
  destruct (falsy_key _); eexists; reflexivity.
Qed.

(** C2, as the code has it: for a key with no entry in the layout cache,
    each of [getClosestRight], [getClosestLeft], [getKeyRightOf] and
    [getKeyLeftOf] throws a TypeError (it reads [rect] of an undefined
    layout info), in either direction; none returns a null result. *)
Theorem navigator_unknown_key_throws (v : Virtualizer) (L : WaterfallLayout)
    (key : Key) :
  layoutInfos L !! key = None ->
  getClosestRight closest v L key = Throw TypeError /\
  getClosestLeft closest v L key = Throw TypeError /\
  getKeyRightOf closest v L key = Throw TypeError /\
  getKeyLeftOf closest v L key = Throw TypeError.
Proof.
  intros Hk.
  assert (Hr : getClosestRight closest v L key = Throw TypeError).
  { unfold getClosestRight, getLayoutInfo. rewrite Hk. reflexivity. }
  assert (Hl : getClosestLeft closest v L key = Throw TypeError).
  { unfold getClosestLeft, getLayoutInfo. rewrite Hk. reflexivity. }
  unfold getKeyRightOf, getKeyLeftOf.
  destruct (direction L); auto.
Qed.

(** C9: over one layout cache, let [B] be what [getClosestRight] finds
    from [A], the layout being left-to-right, so that [getKeyRightOf]
    answers [B].  Once the direction is flipped to right-to-left, [B] is the
    answer of [getKeyLeftOf] for [A]: under right-to-left [getKeyRightOf]
    is [getClosestLeft] and [getKeyLeftOf] is [getClosestRight].  The flip
    leaves every cache entry as it was. *)
Theorem navigator_direction_swap (v : Virtualizer) (L : WaterfallLayout)
    (A B : Key) :
  direction L = ltr ->
  getClosestRight closest v L A = Done (Some B) ->
  getKeyRightOf closest v L A = Done (Some B) /\
  getKeyLeftOf closest v (set_direction rtl L) A = Done (Some B) /\
  getKeyRightOf closest v (set_direction rtl L) A = getClosestLeft closest v L A /\
  getKeyLeftOf closest v (set_direction rtl L) A = getClosestRight closest v L A /\
  layoutInfos (set_direction rtl L) = layoutInfos L.
Proof.
  intros Hd HB. unfold getKeyRightOf, getKeyLeftOf. rewrite Hd. simpl.
  rewrite getClosestRight_direction, getClosestLeft_direction.
  repeat split; assumption.
Qed.

End NavigatorFacts.

Lemma navigator_unknown_key_throws_witness :
  getClosestRight findClosest (viewport [] 800 600) defaultLayout (skey "a")
    = Throw TypeError /\
  getClosestLeft findClosest (viewport [] 800 600) defaultLayout (skey "a")
    = Throw TypeError /\
  getKeyRightOf findClosest (viewport [] 800 600) defaultLayout (skey "a")
    = Throw TypeError /\
  getKeyLeftOf findClosest (viewport [] 800 600) defaultLayout (skey "a")
    = Throw TypeError.
Proof.
  apply (navigator_unknown_key_throws findClosest (viewport [] 800 600)
           defaultLayout (skey "a")).
  reflexivity.
Defined.

(** C2 as stated fails: on a layout whose cache is empty, the key [a] has no
    entry, and none of the four queries returns a null result. *)
Lemma navigator_unknown_key_not_null :
  layoutInfos defaultLayout !! skey "a" = None /\
  getClosestRight findClosest (viewport [] 800 600) defaultLayout (skey "a")
    <> Done None /\
  getClosestLeft findClosest (viewport [] 800 600) defaultLayout (skey "a")
    <> Done None /\
  getKeyRightOf findClosest (viewport [] 800 600) defaultLayout (skey "a")
    <> Done None /\
  getKeyLeftOf findClosest (viewport [] 800 600) defaultLayout (skey "a")
    <> Done None.
Proof.
  split; [reflexivity |].
  repeat split; vm_compute; discriminate.
Qed.

Lemma navigator_direction_swap_witness :
  getKeyRightOf findClosest (viewport [] 800 600) twoCards (skey "a")
    = Done (Some (skey "b")) /\
  getKeyLeftOf findClosest (viewport [] 800 600) (set_direction rtl twoCards) (skey "a")
    = Done (Some (skey "b")) /\
  getKeyRightOf findClosest (viewport [] 800 600) (set_direction rtl twoCards) (skey "a")
    = getClosestLeft findClosest (viewport [] 800 600) twoCards (skey "a") /\
  getKeyLeftOf findClosest (viewport [] 800 600) (set_direction rtl twoCards) (skey "a")
    = getClosestRight findClosest (viewport [] 800 600) twoCards (skey "a") /\
  layoutInfos (set_direction rtl twoCards) = layoutInfos twoCards.
Proof.
  apply (navigator_direction_swap findClosest (viewport [] 800 600) twoCards
           (skey "a") (skey "b")).
  - reflexivity.
  - vm_compute. reflexivity.
Defined.

(** ** The build pass *)

Lemma layoutNode_done L ctx itemWidth hs p node :
  exists p', layoutNode L ctx itemWidth hs p node = Done p'.
Proof.
  unfold layoutNode.
  destruct (estimateHeight_finite L ctx itemWidth (infos p !! node_key node) node)
    as [h Hh].
  destruct (estimateHeight L ctx itemWidth (infos p !! node_key node) node)
    as [height estimated].
  simpl in Hh. subst height. eexists; reflexivity.
Qed.

Lemma layoutNodes_done L ctx itemWidth hs nodes :
  forall p, exists p', layoutNodes L ctx itemWidth hs nodes p = Done p'.
Proof.
  induction nodes as [| node rest IH]; intros p; simpl.
  - eexists; reflexivity.
  - destruct (layoutNode_done L ctx itemWidth hs p node) as [p1 Hp1].
    rewrite Hp1. simpl. apply IH.
Qed.

(** The array allocation is the only place where the loop can fail. *)
Lemma layoutPass_done L ctx v n :
  computeNumColumns L (Rect.width (visibleRect v)) = Num n ->
  n < 2 ^ 32 ->
  exists p,
    layoutPass L ctx v =
      Done (n,
            computeItemWidth L (Rect.width (visibleRect v)) n,
            computeHorizontalSpacing L (Rect.width (visibleRect v)) n
              (computeItemWidth L (Rect.width (visibleRect v)) n),
            p).
Proof.
  intros Hn Hlt. unfold layoutPass. rewrite Hn.
  destruct (Z.leb_spec (2 ^ 32) n); [lia |].
  match goal with
  | |- context [layoutNodes ?a ?b ?c ?d ?e ?f] =>
      destruct (layoutNodes_done a b c d e f) as [p Hp]; rewrite Hp
  end.
  exists p. reflexivity.
Qed.

(** No run of the build pass leaves the model. *)
Lemma buildCollection_on_model ctx v L : buildCollection ctx v L <> OffModel.
Proof.
  unfold buildCollection, layoutPass.
  destruct (computeNumColumns L (Rect.width (visibleRect v))) as [| | n |];
    try discriminate.
  destruct (2 ^ 32 <=? n); [discriminate |].
  match goal with
  | |- context [layoutNodes ?a ?b ?c ?d ?e ?f] =>
      destruct (layoutNodes_done a b c d e f) as [p Hp]; rewrite Hp
  end.
  simpl. destruct (placePlaceholder _ _ _). discriminate.
Qed.

(** C8: a build with [isLoading] set, whose column count is a valid array
    length, completes, and the cache then holds an entry for the key
    [loader]: when the collection is not empty its rectangle is
    [(0, maxHeight, visibleWidth, 60)], [maxHeight] being the height computed
    from the columns after the loop; when the collection is empty it is
    [(0, 0, visibleWidth, h)] with [h] the visible height, or 60 when that
    height is zero. *)
Theorem loader_rectangle (ctx : InvalidationContext) (v : Virtualizer)
    (L : WaterfallLayout) (n : Z) :
  isLoading L = true ->
  computeNumColumns L (Rect.width (visibleRect v)) = Num n ->
  n < 2 ^ 32 ->
  exists iw hs p L' loader,
    layoutPass L ctx v = Done (n, iw, hs, p) /\
    buildCollection ctx v L = Done L' /\
    layoutInfos L' !! skey "loader" = Some loader /\
    li_key loader = skey "loader" /\
    rect loader =
      (if Collection.size (collection L) =? 0 then
         Rect.mk 0 0 (Rect.width (visibleRect v))
           (if Rect.height (visibleRect v) =? 0 then 60
            else Rect.height (visibleRect v))
       else
         Rect.mk 0 (maxHeightOf L p) (Rect.width (visibleRect v)) 60).
Proof.
  intros Hload Hn Hlt.
  destruct (layoutPass_done L ctx v n Hn Hlt) as [p Hp].
  unfold buildCollection. rewrite Hp. simpl.
  unfold placeLoader, placePlaceholder. rewrite Hload.
  rewrite andb_false_r.
  do 5 eexists. split; [reflexivity |]. split; [reflexivity |].
  simpl. rewrite lookup_insert_eq.
  split; [reflexivity |]. split; [reflexivity |].
  unfold newLayoutInfo, loaderRect, truthy. simpl.
  destruct (Collection.size (collection L) =? 0); [| reflexivity].
  destruct (Rect.height (visibleRect v) =? 0); reflexivity.
Qed.

Lemma loader_rectangle_witness :
  exists iw hs p L' loader,
    layoutPass loadingOneCard noResize (viewport [item "a"] 800 600)
      = Done (3, iw, hs, p) /\
    buildCollection noResize (viewport [item "a"] 800 600) loadingOneCard = Done L' /\
    layoutInfos L' !! skey "loader" = Some loader /\
    li_key loader = skey "loader" /\
    rect loader =
      (if Collection.size (collection loadingOneCard) =? 0 then
         Rect.mk 0 0 (Rect.width (visibleRect (viewport [item "a"] 800 600)))
           (if Rect.height (visibleRect (viewport [item "a"] 800 600)) =? 0
            then 60
            else Rect.height (visibleRect (viewport [item "a"] 800 600)))
       else
         Rect.mk 0 (maxHeightOf loadingOneCard p)
           (Rect.width (visibleRect (viewport [item "a"] 800 600))) 60).
Proof.
  apply (loader_rectangle noResize (viewport [item "a"] 800 600) loadingOneCard 3).
  - reflexivity.
  - vm_compute. reflexivity.
  - reflexivity.
Defined.

(** ** validate *)

Lemma buildCollection_keeps ctx v L L' :
  buildCollection ctx v L = Done L' ->
  lastCollection L' = lastCollection L /\
  collection L' = collection L /\
  isLoading L' = isLoading L.
Proof.
  unfold buildCollection. destruct (layoutPass L ctx v) as [[[[n iw] hs] p] | |];
    simpl; try discriminate.
  destruct (placePlaceholder _ _ _) as [m y].
  intros [= <-]. auto.
Qed.

Lemma evict_fold_lookup (c : Collection.t) (k : Key) (keys : list Key) :
  forall m : gmap Key LayoutInfo,
    (In k keys /\ Collection.getItem c k = None) \/ m !! k = None ->
    fold_left
      (fun m key =>
         match Collection.getItem c key with
         | None => delete key m
         | Some _ => m
         end) keys m !! k = None.
Proof.
  induction keys as [| key keys IH]; intros m H; simpl.
  - destruct H as [[[] _] | H]; assumption.
  - apply IH. destruct H as [[[-> | Hin] Hc] | Hm].
    + right. rewrite Hc. apply lookup_delete_eq.
    + left. auto.
    + right. destruct (Collection.getItem c key); [assumption |].
      rewrite lookup_delete_None. auto.
Qed.

Lemma removeStale_lookup last L k :
  In k (Collection.getKeys last) ->
  Collection.getItem (collection L) k = None ->
  layoutInfos (removeStale last L) !! k = None.
Proof.
  intros Hin Hc. unfold removeStale. simpl.
  match goal with
  | |- context [fold_left ?f ?keys ?m] =>
      pose proof (evict_fold_lookup (collection L) k keys m (or_introl (conj Hin Hc)))
        as Hf; set (m1 := fold_left f keys m) in *
  end.
  destruct (negb (isLoading L)), (0 <? Collection.size (collection L));
    rewrite ?lookup_delete_None; auto.
Qed.

(** C4, as the code has it: [validate] runs the build pass first, on the
    cache as the previous pass left it, and deletes afterwards; when a
    previous collection exists and the column count is a valid array length,
    [validate] completes, and the layout it returns is the one the build pass
    produced with the stale entries deleted from it, so that no entry is left
    for a key of the previous collection that the new collection lacks. *)
Theorem validate_evicts_after_build (ctx : InvalidationContext) (v : Virtualizer)
    (L : WaterfallLayout) (n : Z) (last : Collection.t) (k : Key) :
  computeNumColumns L (Rect.width (visibleRect v)) = Num n ->
  n < 2 ^ 32 ->
  lastCollection L = Some last ->
  In k (Collection.getKeys last) ->
  Collection.getItem (v_collection v) k = None ->
  exists L1 L',
    buildCollection ctx v (set_collection (v_collection v) L) = Done L1 /\
    validate ctx v L = Done L' /\
    L' = set_lastCollection (Some (v_collection v)) (removeStale last L1) /\
    layoutInfos L' !! k = None.
Proof.
  intros Hn Hlt Hlast Hin Hc.
  destruct (layoutPass_done (set_collection (v_collection v) L) ctx v n Hn Hlt)
    as [p Hp].
  destruct (buildCollection ctx v (set_collection (v_collection v) L))
    as [L1 | e |] eqn:Hb.
  - destruct (buildCollection_keeps _ _ _ _ Hb) as (Hl1 & Hc1 & _).
    simpl in Hl1, Hc1.
    exists L1, (set_lastCollection (Some (v_collection v)) (removeStale last L1)).
    split; [reflexivity |].
    split.
    + unfold validate. rewrite Hb. simpl. rewrite Hl1, Hlast. simpl.
      rewrite Hc1. reflexivity.
    + split; [reflexivity |]. simpl.
      apply removeStale_lookup; [assumption |]. rewrite Hc1. assumption.
  - unfold buildCollection in Hb. rewrite Hp in Hb. simpl in Hb.
    destruct (placePlaceholder _ _ _); discriminate.
  - exfalso. apply (buildCollection_on_model _ _ _ Hb).
Qed.

Lemma validate_evicts_after_build_witness :
  exists L1 L',
    buildCollection noResize (viewport [item "a"] 800 600)
      (set_collection (v_collection (viewport [item "a"] 800 600)) afterTwoCards)
      = Done L1 /\
    validate noResize (viewport [item "a"] 800 600) afterTwoCards = Done L' /\
    L' = set_lastCollection (Some (v_collection (viewport [item "a"] 800 600)))
           (removeStale [item "a"; item "b"] L1) /\
    layoutInfos L' !! skey "b" = None.
Proof.
  apply (validate_evicts_after_build noResize (viewport [item "a"] 800 600)
           afterTwoCards 3 [item "a"; item "b"] (skey "b")).
  - vm_compute. reflexivity.
  - reflexivity.
  - vm_compute. reflexivity.
  - simpl. right. left. reflexivity.
  - vm_compute. reflexivity.
Defined.

(** C4 as stated fails: the cards [a] and [b] were laid out, and [validate]
    is called over the collection [a] alone.  The build pass of that call
    runs on the cache as it stands and completes with the rectangle of the
    removed key [b] still in the cache, next to the entry it has written for
    [a]: the deletion has not run before it. *)
Lemma build_pass_sees_stale_entry :
  lastCollection afterTwoCards = Some [item "a"; item "b"] /\
  Collection.getItem [item "a"] (skey "b") = None /\
  exists L1,
    buildCollection noResize (viewport [item "a"] 800 600)
      (set_collection [item "a"] afterTwoCards) = Done L1 /\
    layoutInfos L1 !! skey "a" =
      Some (mkLayoutInfo "item" (skey "a") (Rect.mk 24 24 240 240) true) /\
    layoutInfos L1 !! skey "b" =
      Some (mkLayoutInfo "item" (skey "b") (Rect.mk 280 24 240 240) true).
Proof.
  split; [vm_compute; reflexivity |].
  split; [vm_compute; reflexivity |].
  eexists. split; [vm_compute; reflexivity |].
  split; vm_compute; reflexivity.
Qed.

(** C3: an empty collection that is not loading is validated, which puts the
    placeholder in the cache; the collection then starts loading, still
    empty, and is validated again.  The cache then holds the loader and still
    holds the placeholder, although the collection is loading: [validate]
    deletes the placeholder only when the collection has items. *)
Theorem validate_keeps_placeholder_while_loading :
  validate noResize (viewport [] 800 600) defaultLayout = Done afterEmpty /\
  layoutInfos afterEmpty !! skey "placeholder" =
    Some (mkLayoutInfo "placeholder" (skey "placeholder") (Rect.mk 0 0 800 600) false) /\
  exists L2,
    validate noResize (viewport [] 800 600) (set_isLoading true afterEmpty) = Done L2 /\
    isLoading L2 = true /\
    collection L2 = [] /\
    layoutInfos L2 !! skey "loader" =
      Some (mkLayoutInfo "loader" (skey "loader") (Rect.mk 0 0 800 600) false) /\
    layoutInfos L2 !! skey "placeholder" =
      Some (mkLayoutInfo "placeholder" (skey "placeholder") (Rect.mk 0 0 800 600) false).
Proof.
  split; [vm_compute; reflexivity |].
  split; [vm_compute; reflexivity |].
  eexists. split; [vm_compute; reflexivity |].
  repeat split; vm_compute; reflexivity.
Qed.

(** ** The 800 pixel scenario *)

(** A node without intrinsic size whose key is not yet in the cache takes
    the square fallback and goes to the first shortest column. *)
Lemma layoutNode_fresh L ctx iw hs p k t :
  infos p !! k = None ->
  layoutNode L ctx iw hs p (mkNode k t None None) =
    let column := getNextColumnIndex (columnHeights p) in
    Done (mkPass
            (<[column := (columnHeights p !!! column) + (iw + Size.height (minSpace L))]>
               (columnHeights p))
            (<[k := mkLayoutInfo t k
                      (Rect.mk (margin L + Z.of_nat column * (iw + hs))
                         (columnHeights p !!! column) iw iw) true]> (infos p))
            (placed p ++ [column])).
Proof.
  intros Hk. unfold layoutNode. simpl. rewrite Hk. reflexivity.
Qed.

(** C5: viewport width 800 on a layout with the default options
    ([minItemSize = (240, 136)], [minSpace = (24, 24)], margin 24).  The
    build computes 3 columns; the rounded item width is 235 and is raised to
    240; four items with distinct keys and no intrinsic size each get the
    square height 240 and go to the columns 0, 1, 2, 0 in collection order,
    that is to [x = 24 + column * (240 + 16)], the fourth below the first. *)
Theorem four_square_items_800 (ctx : InvalidationContext) (v : Virtualizer)
    (k1 k2 k3 k4 : Key) (t1 t2 t3 t4 : string) :
  Rect.width (visibleRect v) = 800 ->
  NoDup [k1; k2; k3; k4] ->
  let L :=
    set_collection
      [mkNode k1 t1 None None; mkNode k2 t2 None None;
       mkNode k3 t3 None None; mkNode k4 t4 None None] defaultLayout in
  computeNumColumns L 800 = Num 3 /\
  round_div (800 - 24 * 2 - 24 * (3 - 1)) 3 = 235 /\
  computeItemWidth L 800 3 = 240 /\
  (exists p,
     layoutPass L ctx v = Done (3, 240, 16, p) /\
     placed p = [0; 1; 2; 0]%nat /\
     infos p !! k1 = Some (mkLayoutInfo t1 k1 (Rect.mk 24 24 240 240) true) /\
     infos p !! k2 = Some (mkLayoutInfo t2 k2 (Rect.mk 280 24 240 240) true) /\
     infos p !! k3 = Some (mkLayoutInfo t3 k3 (Rect.mk 536 24 240 240) true) /\
     infos p !! k4 = Some (mkLayoutInfo t4 k4 (Rect.mk 24 288 240 240) true)) /\
  (exists L',
     buildCollection ctx v L = Done L' /\
     numColumns L' = 3 /\ itemWidth L' = 240 /\ horizontalSpacing L' = 16).
Proof.
  intros Hw Hnd L.
  split; [reflexivity |]. split; [reflexivity |]. split; [reflexivity |].
  apply NoDup_cons in Hnd as [H1 Hnd]. apply NoDup_cons in Hnd as [H2 Hnd].
  apply NoDup_cons in Hnd as [H3 _].
  assert (H12 : k1 <> k2) by set_solver. assert (H13 : k1 <> k3) by set_solver.
  assert (H14 : k1 <> k4) by set_solver. assert (H23 : k2 <> k3) by set_solver.
  assert (H24 : k2 <> k4) by set_solver. assert (H34 : k3 <> k4) by set_solver.
  clear H1 H2 H3.
  assert (Hpass : exists p,
     layoutPass L ctx v = Done (3, 240, 16, p) /\
     placed p = [0; 1; 2; 0]%nat /\
     infos p !! k1 = Some (mkLayoutInfo t1 k1 (Rect.mk 24 24 240 240) true) /\
     infos p !! k2 = Some (mkLayoutInfo t2 k2 (Rect.mk 280 24 240 240) true) /\
     infos p !! k3 = Some (mkLayoutInfo t3 k3 (Rect.mk 536 24 240 240) true) /\
     infos p !! k4 = Some (mkLayoutInfo t4 k4 (Rect.mk 24 288 240 240) true)).
  { unfold layoutPass. rewrite Hw.
    change (computeNumColumns L 800) with (Num 3). cbv beta iota zeta.
    change (computeItemWidth L 800 3) with 240.
    change (computeHorizontalSpacing L 800 3 240) with 16.
    change (2 ^ 32 <=? 3) with false. cbv iota.
    change (replicate (Z.to_nat 3) (margin L)) with [24; 24; 24].
    change (collection L) with
      [mkNode k1 t1 None None; mkNode k2 t2 None None;
       mkNode k3 t3 None None; mkNode k4 t4 None None].
    change (layoutInfos L) with (∅ : gmap Key LayoutInfo).
    cbn [layoutNodes].
    rewrite layoutNode_fresh by fresh_key. eval_pass.
    rewrite layoutNode_fresh by fresh_key. eval_pass.
    rewrite layoutNode_fresh by fresh_key. eval_pass.
    rewrite layoutNode_fresh by fresh_key. eval_pass.
    eexists. split; [reflexivity |]. cbn [placed infos].
    split; [reflexivity |].
    repeat split.
    - rewrite !lookup_insert_ne by congruence. rewrite lookup_insert_eq. reflexivity.
    - rewrite !lookup_insert_ne by congruence. rewrite lookup_insert_eq. reflexivity.
    - rewrite !lookup_insert_ne by congruence. rewrite lookup_insert_eq. reflexivity.
    - rewrite lookup_insert_eq. reflexivity. }
  split; [exact Hpass |].
  destruct Hpass as (p & Hp & _).
  unfold buildCollection. rewrite Hp. cbn [bind].
  destruct (placePlaceholder L v _) as [m y].
  eexists. split; [reflexivity |]. simpl. auto.
Qed.

Lemma four_square_items_800_witness :
  let v := viewport [item "a"; item "b"; item "c"; item "d"] 800 600 in
  let L := set_collection [item "a"; item "b"; item "c"; item "d"] defaultLayout in
  computeNumColumns L 800 = Num 3 /\
  round_div (800 - 24 * 2 - 24 * (3 - 1)) 3 = 235 /\
  computeItemWidth L 800 3 = 240 /\
  (exists p,
     layoutPass L noResize v = Done (3, 240, 16, p) /\
     placed p = [0; 1; 2; 0]%nat /\
     infos p !! skey "a" = Some (mkLayoutInfo "item" (skey "a") (Rect.mk 24 24 240 240) true) /\
     infos p !! skey "b" = Some (mkLayoutInfo "item" (skey "b") (Rect.mk 280 24 240 240) true) /\
     infos p !! skey "c" = Some (mkLayoutInfo "item" (skey "c") (Rect.mk 536 24 240 240) true) /\
     infos p !! skey "d" = Some (mkLayoutInfo "item" (skey "d") (Rect.mk 24 288 240 240) true)) /\
  (exists L',
     buildCollection noResize v L = Done L' /\
     numColumns L' = 3 /\ itemWidth L' = 240 /\ horizontalSpacing L' = 16).
Proof.
  intros v.
  apply (four_square_items_800 noResize v (skey "a") (skey "b") (skey "c") (skey "d")
           "item" "item" "item" "item").
  - reflexivity.
  - compute_done.
Defined.

(** * Further properties of the layout *)

(** ** Choosing the column *)

Lemma argmin_fold (l : list Z) (len : nat) :
  forall (s m : nat),
    (m < s)%nat ->
    (forall j, (j < s)%nat -> l !!! m <= l !!! j) ->
    (forall j, (j < m)%nat -> l !!! m < l !!! j) ->
    let r := fold_left
               (fun minIndex i =>
                  if (l !!! i) <? (l !!! minIndex) then i else minIndex)
               (seq s len) m in
    (r < s + len)%nat /\
    (forall j, (j < s + len)%nat -> l !!! r <= l !!! j) /\
    (forall j, (j < r)%nat -> l !!! r < l !!! j).
Proof.
  induction len as [| len IH]; intros s m Hm Hle Hlt; simpl.
  - rewrite Nat.add_0_r. auto.
  - replace (s + S len)%nat with (S s + len)%nat by lia.
    destruct (Z.ltb_spec (l !!! s) (l !!! m)).
    + apply IH.
      * lia.
      * intros j Hj. destruct (decide (j = s)) as [-> | Hne]; [lia |].
        specialize (Hle j ltac:(lia)). lia.
      * intros j Hj. specialize (Hle j Hj). lia.
    + apply IH.
      * lia.
      * intros j Hj. destruct (decide (j = s)) as [-> | Hne]; [lia |].
        apply Hle. lia.
      * assumption.
Qed.

Lemma getNextColumnIndex_argmin (columnHeights : list Z) :
  columnHeights <> [] ->
  (getNextColumnIndex columnHeights < length columnHeights)%nat /\
  (forall j, (j < length columnHeights)%nat ->
             columnHeights !!! getNextColumnIndex columnHeights
             <= columnHeights !!! j) /\
  (forall j, (j < getNextColumnIndex columnHeights)%nat ->
             columnHeights !!! getNextColumnIndex columnHeights
             < columnHeights !!! j).
Proof.
  intros Hne. unfold getNextColumnIndex.
  destruct columnHeights as [| h0 t]; [contradiction |].
  cbn [length seq fold_left].
  rewrite Z.ltb_irrefl.
  pose proof (argmin_fold (h0 :: t) (length t) 1 0) as H.
  cbn zeta in H. replace (1 + length t)%nat with (S (length t)) in H by lia.
  apply H.
  - lia.
  - intros j Hj. assert (j = 0%nat) by lia. subst. lia.
  - intros j Hj. lia.
Qed.

(** X1: on a non-empty array of column heights, [getNextColumnIndex] returns
    the index of a column that exists, whose height is the least of all
    columns, and every column before it is strictly higher: of several
    shortest columns it is the first. *)
Theorem getNextColumnIndex_least (columnHeights : list Z) :
  columnHeights <> [] ->
  exists h,
    columnHeights !! getNextColumnIndex columnHeights = Some h /\
    (forall j hj, columnHeights !! j = Some hj -> h <= hj) /\
    (forall j hj, (j < getNextColumnIndex columnHeights)%nat ->
                  columnHeights !! j = Some hj -> h < hj).
Proof.
  intros Hne.
  destruct (getNextColumnIndex_argmin columnHeights Hne) as (Hc & Hmin & Hfirst).
  exists (columnHeights !!! getNextColumnIndex columnHeights).
  split; [apply list_lookup_lookup_total_lt; exact Hc |].
  split.
  - intros j hj Hj.
    rewrite <- (list_lookup_total_correct _ _ _ Hj).
    apply Hmin. apply (lookup_lt_Some _ _ _ Hj).
  - intros j hj Hlt Hj.
    rewrite <- (list_lookup_total_correct _ _ _ Hj).
    apply Hfirst. exact Hlt.
Qed.

Lemma getNextColumnIndex_least_witness :
  exists h,
    threeColumns !! getNextColumnIndex threeColumns = Some h /\
    (forall j hj, threeColumns !! j = Some hj -> h <= hj) /\
    (forall j hj, (j < getNextColumnIndex threeColumns)%nat ->
                  threeColumns !! j = Some hj -> h < hj).
Proof.
  apply (getNextColumnIndex_least threeColumns). discriminate.
Defined.

(** ** The loop, step by step *)

Lemma estimateHeight_old L ctx iw o node :
  estimateHeight L ctx iw (Some o) node
  = (Num (Rect.height (rect o)), sizeChanged ctx || estimatedSize o).
Proof. reflexivity. Qed.

Lemma estimateHeight_fresh_flag L ctx iw node :
  snd (estimateHeight L ctx iw None node) = true.
Proof.
  unfold estimateHeight.
  destruct (props_width node), (props_height node); try reflexivity.
  destruct (truthy _ && truthy _); reflexivity.
Qed.

Lemma estimateHeight_flag_absorb L ctx iw old node :
  sizeChanged ctx || snd (estimateHeight L ctx iw old node)
  = snd (estimateHeight L ctx iw old node).
Proof.
  destruct old as [o |].
  - rewrite estimateHeight_old. simpl. destruct (sizeChanged ctx); reflexivity.
  - rewrite estimateHeight_fresh_flag. apply orb_true_r.
Qed.

Lemma layoutNode_inv L ctx iw hs p node p' :
  layoutNode L ctx iw hs p node = Done p' ->
  exists h e,
    estimateHeight L ctx iw (infos p !! node_key node) node = (Num h, e) /\
    p' = mkPass
           (<[getNextColumnIndex (columnHeights p) :=
                (columnHeights p !!! getNextColumnIndex (columnHeights p))
                + (h + Size.height (minSpace L))]> (columnHeights p))
           (<[node_key node :=
                mkLayoutInfo (node_type node) (node_key node)
                  (Rect.mk
                     (margin L
                      + Z.of_nat (getNextColumnIndex (columnHeights p)) * (iw + hs))
                     (columnHeights p !!! getNextColumnIndex (columnHeights p))
                     iw h) e]> (infos p))
           (placed p ++ [getNextColumnIndex (columnHeights p)]).
Proof.
  unfold layoutNode.
  destruct (estimateHeight L ctx iw (infos p !! node_key node) node) as [height e].
  destruct height as [| | h |]; try discriminate.
  intros [= <-]. exists h, e. split; reflexivity.
Qed.

Lemma layoutNodes_cons L ctx iw hs node rest p p' :
  layoutNodes L ctx iw hs (node :: rest) p = Done p' ->
  exists p1, layoutNode L ctx iw hs p node = Done p1 /\
             layoutNodes L ctx iw hs rest p1 = Done p'.
Proof.
  simpl. destruct (layoutNode L ctx iw hs p node) as [p1 | |]; simpl;
    try discriminate.
  intros H. exists p1. auto.
Qed.

Lemma layoutNodes_frame L ctx iw hs nodes k :
  forall p p',
    layoutNodes L ctx iw hs nodes p = Done p' ->
    ~ In k (Collection.getKeys nodes) ->
    infos p' !! k = infos p !! k.
Proof.
  induction nodes as [| node rest IH]; intros p p' Hrun Hk.
  - simpl in Hrun. injection Hrun as <-. reflexivity.
  - apply layoutNodes_cons in Hrun as (p1 & H1 & Hrest).
    apply layoutNode_inv in H1 as (h & e & _ & ->).
    simpl in Hk.
    rewrite (IH _ _ Hrest) by tauto.
    simpl. apply lookup_insert_ne. tauto.
Qed.

Lemma layoutNodes_keeps L ctx iw hs nodes k :
  forall p p',
    layoutNodes L ctx iw hs nodes p = Done p' ->
    is_Some (infos p !! k) -> is_Some (infos p' !! k).
Proof.
  induction nodes as [| node rest IH]; intros p p' Hrun Hk.
  - simpl in Hrun. injection Hrun as <-. assumption.
  - apply layoutNodes_cons in Hrun as (p1 & H1 & Hrest).
    apply layoutNode_inv in H1 as (h & e & _ & ->).
    apply (IH _ _ Hrest). simpl.
    destruct (decide (node_key node = k)) as [-> | Hne].
    + rewrite lookup_insert_eq. eauto.
    + rewrite lookup_insert_ne by assumption. assumption.
Qed.

Lemma layoutNodes_complete L ctx iw hs nodes k :
  forall p p',
    layoutNodes L ctx iw hs nodes p = Done p' ->
    In k (Collection.getKeys nodes) ->
    is_Some (infos p' !! k).
Proof.
  induction nodes as [| node rest IH]; intros p p' Hrun Hk.
  - destruct Hk.
  - apply layoutNodes_cons in Hrun as (p1 & H1 & Hrest).
    destruct Hk as [<- | Hk].
    + apply (layoutNodes_keeps _ _ _ _ _ _ _ _ Hrest).
      apply layoutNode_inv in H1 as (h & e & _ & ->). simpl.
      rewrite lookup_insert_eq. eauto.
    + apply (IH _ _ Hrest Hk).
Qed.

Lemma layoutNodes_length L ctx iw hs nodes :
  forall p p',
    layoutNodes L ctx iw hs nodes p = Done p' ->
    length (columnHeights p') = length (columnHeights p).
Proof.
  induction nodes as [| node rest IH]; intros p p' Hrun.
  - simpl in Hrun. injection Hrun as <-. reflexivity.
  - apply layoutNodes_cons in Hrun as (p1 & H1 & Hrest).
    rewrite (IH _ _ Hrest).
    apply layoutNode_inv in H1 as (h & e & _ & ->). simpl.
    apply length_insert.
Qed.

(** ** The build pass, taken apart *)

Lemma computeNumColumns_ge_1 L w n : computeNumColumns L w = Num n -> 1 <= n.
Proof.
  unfold computeNumColumns.
  destruct (xmin_bound _ _); simpl; intros [= <-]; lia.
Qed.

Lemma layoutPass_inv L ctx v n iw hs p :
  layoutPass L ctx v = Done (n, iw, hs, p) ->
  computeNumColumns L (Rect.width (visibleRect v)) = Num n /\
  1 <= n < 2 ^ 32 /\
  iw = computeItemWidth L (Rect.width (visibleRect v)) n /\
  hs = computeHorizontalSpacing L (Rect.width (visibleRect v)) n iw /\
  layoutNodes L ctx iw hs (collection L)
    (mkPass (replicate (Z.to_nat n) (margin L)) (layoutInfos L) []) = Done p.
Proof.
  unfold layoutPass.
  destruct (computeNumColumns L (Rect.width (visibleRect v))) as [| | n0 |] eqn:Hn;
    try discriminate.
  destruct (Z.leb_spec (2 ^ 32) n0); [discriminate |].
  match goal with
  | |- context [layoutNodes ?a ?b ?c ?d ?e ?f] =>
      destruct (layoutNodes a b c d e f) as [p0 | |] eqn:Hrun
  end; simpl; try discriminate.
  intros [= <- <- <- <-].
  pose proof (computeNumColumns_ge_1 _ _ _ Hn).
  repeat split; try assumption; lia.
Qed.

Lemma buildCollection_inv ctx v L L' :
  buildCollection ctx v L = Done L' ->
  exists n iw hs p,
    layoutPass L ctx v = Done (n, iw, hs, p) /\
    L' = set_built n iw hs
           (fst (placePlaceholder L v (placeLoader L v (infos p, maxHeightOf L p))))
           (Size.mk (Rect.width (visibleRect v))
              (snd (placePlaceholder L v (placeLoader L v (infos p, maxHeightOf L p)))))
           L.
Proof.
  unfold buildCollection.
  destruct (layoutPass L ctx v) as [[[[n iw] hs] p] | |]; cbn [bind];
    try discriminate.
  destruct (placePlaceholder L v (placeLoader L v (infos p, maxHeightOf L p)))
    as [m y] eqn:Hm.
  intros [= <-]. exists n, iw, hs, p. split; [reflexivity |].
  rewrite Hm. reflexivity.
Qed.

(** The loader and the placeholder touch no other key. *)
Lemma placed_lookup_other L v m y k :
  ~ synthetic k ->
  fst (placePlaceholder L v (placeLoader L v (m, y))) !! k = m !! k.
Proof.
  intros Hk. unfold placePlaceholder, placeLoader, synthetic in *.
  destruct (isLoading L); simpl;
    destruct (Collection.size (collection L) =? 0); simpl;
    rewrite ?lookup_insert_ne by (intros Heq; apply Hk; auto); reflexivity.
Qed.

Lemma placed_lookup_loader L v m y :
  fst (placePlaceholder L v (placeLoader L v (m, y))) !! skey "loader"
  = if isLoading L
    then Some (newLayoutInfo "loader" (skey "loader") (loaderRect L v y))
    else m !! skey "loader".
Proof.
  unfold placePlaceholder, placeLoader.
  destruct (isLoading L); simpl.
  - rewrite andb_false_r. simpl. apply lookup_insert_eq.
  - rewrite andb_true_r.
    destruct (Collection.size (collection L) =? 0); simpl; [| reflexivity].
    apply lookup_insert_ne. discriminate.
Qed.

Lemma placed_lookup_placeholder L v m y :
  fst (placePlaceholder L v (placeLoader L v (m, y))) !! skey "placeholder"
  = if (Collection.size (collection L) =? 0) && negb (isLoading L)
    then Some (newLayoutInfo "placeholder" (skey "placeholder")
                 (Rect.mk 0 0 (Rect.width (visibleRect v))
                    (Rect.height (visibleRect v))))
    else m !! skey "placeholder".
Proof.
  unfold placePlaceholder, placeLoader.
  destruct (isLoading L); simpl.
  - rewrite andb_false_r. simpl. apply lookup_insert_ne. discriminate.
  - rewrite andb_true_r.
    destruct (Collection.size (collection L) =? 0); simpl; [| reflexivity].
    apply lookup_insert_eq.
Qed.

Lemma buildCollection_lookup_item ctx v L L' k :
  buildCollection ctx v L = Done L' ->
  ~ synthetic k ->
  exists n iw hs p,
    layoutPass L ctx v = Done (n, iw, hs, p) /\
    numColumns L' = n /\ itemWidth L' = iw /\ horizontalSpacing L' = hs /\
    layoutInfos L' !! k = infos p !! k.
Proof.
  intros Hb Hk. apply buildCollection_inv in Hb as (n & iw & hs & p & Hp & ->).
  exists n, iw, hs, p. repeat split; try assumption.
  simpl. apply placed_lookup_other. assumption.
Qed.

(** ** validate and the keys of the cache *)

Lemma getItem_None (c : Collection.t) (k : Key) :
  Collection.getItem c k = None <-> ~ In k (Collection.getKeys c).
Proof.
  unfold Collection.getItem, Collection.getKeys.
  induction c as [| node rest IH]; simpl.
  - tauto.
  - destruct (bool_decide_reflect (node_key node = k)) as [Heq | Hne].
    + split; [discriminate | intros H; exfalso; apply H; auto].
    + rewrite IH. tauto.
Qed.

Lemma evict_fold_other (c : Collection.t) (k : Key) (keys : list Key) :
  forall m : gmap Key LayoutInfo,
    ~ (In k keys /\ Collection.getItem c k = None) ->
    fold_left
      (fun m key =>
         match Collection.getItem c key with
         | None => delete key m
         | Some _ => m
         end) keys m !! k = m !! k.
Proof.
  induction keys as [| key keys IH]; intros m H; simpl.
  - reflexivity.
  - rewrite IH by (simpl in H; tauto).
    destruct (Collection.getItem c key) eqn:Hc; [reflexivity |].
    apply lookup_delete_ne. intros ->. apply H. simpl. auto.
Qed.

Lemma removeStale_lookup_kept last L k :
  ~ (In k (Collection.getKeys last) /\ Collection.getItem (collection L) k = None) ->
  ~ (k = skey "loader" /\ isLoading L = false) ->
  ~ (k = skey "placeholder" /\ 0 < Collection.size (collection L)) ->
  layoutInfos (removeStale last L) !! k = layoutInfos L !! k.
Proof.
  intros Hs Hl Hp. unfold removeStale. simpl.
  match goal with
  | |- context [fold_left ?f ?keys ?m] =>
      pose proof (evict_fold_other (collection L) k keys m Hs) as Hf;
      set (m1 := fold_left f keys m) in *
  end.
  rewrite <- Hf.
  destruct (isLoading L) eqn:Hload; simpl;
    destruct (Z.ltb_spec 0 (Collection.size (collection L)));
    rewrite ?lookup_delete_ne; try reflexivity;
    intros <-; tauto.
Qed.

Lemma removeStale_lookup_loader last L :
  isLoading L = false ->
  layoutInfos (removeStale last L) !! skey "loader" = None.
Proof.
  intros Hload. unfold removeStale. simpl. rewrite Hload. simpl.
  destruct (0 <? Collection.size (collection L)).
  - rewrite lookup_delete_ne by discriminate. apply lookup_delete_eq.
  - apply lookup_delete_eq.
Qed.

Lemma removeStale_lookup_placeholder last L :
  0 < Collection.size (collection L) ->
  layoutInfos (removeStale last L) !! skey "placeholder" = None.
Proof.
  intros Hsize. unfold removeStale. simpl.
  destruct (Z.ltb_spec 0 (Collection.size (collection L))); [| lia].
  apply lookup_delete_eq.
Qed.

Lemma validate_inv ctx v L L' :
  validate ctx v L = Done L' ->
  exists L1,
    buildCollection ctx v (set_collection (v_collection v) L) = Done L1 /\
    collection L1 = v_collection v /\
    isLoading L1 = isLoading L /\
    L' = set_lastCollection (Some (v_collection v))
           (match lastCollection L with
            | Some last => removeStale last L1
            | None => L1
            end).
Proof.
  unfold validate.
  destruct (buildCollection ctx v (set_collection (v_collection v) L))
    as [L1 | |] eqn:Hb; simpl; try discriminate.
  destruct (buildCollection_keeps _ _ _ _ Hb) as (Hl & Hc & Hi).
  simpl in Hl, Hc, Hi. rewrite Hl.
  intros [= <-]. exists L1. repeat split; try assumption.
  destruct (lastCollection L); simpl; rewrite Hc; reflexivity.
Qed.

Lemma layoutNodes_domain L ctx iw hs nodes p p' k :
  layoutNodes L ctx iw hs nodes p = Done p' ->
  (is_Some (infos p' !! k) <->
   In k (Collection.getKeys nodes) \/ is_Some (infos p !! k)).
Proof.
  intros Hrun. split.
  - intros Hk.
    destruct (In_dec (fun a b : Key => decide (a = b)) k (Collection.getKeys nodes))
      as [Hin | Hout]; [auto |].
    right. rewrite <- (layoutNodes_frame _ _ _ _ _ _ _ _ Hrun Hout). assumption.
  - intros [Hin | Hk].
    + eapply layoutNodes_complete; eauto.
    + eapply layoutNodes_keeps; eauto.
Qed.

(** The build pass adds the keys of the collection and removes nothing. *)
Lemma buildCollection_domain ctx v L L' k :
  buildCollection ctx v L = Done L' ->
  ~ synthetic k ->
  (is_Some (layoutInfos L' !! k) <->
   In k (Collection.getKeys (collection L)) \/ is_Some (layoutInfos L !! k)).
Proof.
  intros Hb Hk.
  destruct (buildCollection_lookup_item _ _ _ _ _ Hb Hk)
    as (n & iw & hs & p & Hp & _ & _ & _ & ->).
  apply layoutPass_inv in Hp as (_ & _ & _ & _ & Hrun).
  rewrite (layoutNodes_domain _ _ _ _ _ _ _ k Hrun). simpl. reflexivity.
Qed.

Lemma buildCollection_loader ctx v L L' :
  buildCollection ctx v L = Done L' ->
  ~ In (skey "loader") (Collection.getKeys (collection L)) ->
  (isLoading L = true -> is_Some (layoutInfos L' !! skey "loader")) /\
  (isLoading L = false ->
   layoutInfos L' !! skey "loader" = layoutInfos L !! skey "loader").
Proof.
  intros Hb Hk. apply buildCollection_inv in Hb as (n & iw & hs & p & Hp & ->).
  unfold set_built; cbn [layoutInfos isLoading collection].
  rewrite placed_lookup_loader.
  apply layoutPass_inv in Hp as (_ & _ & _ & _ & Hrun).
  split; intros ->; [eauto |].
  rewrite (layoutNodes_frame _ _ _ _ _ _ _ _ Hrun Hk). reflexivity.
Qed.

Lemma buildCollection_placeholder ctx v L L' :
  buildCollection ctx v L = Done L' ->
  ~ In (skey "placeholder") (Collection.getKeys (collection L)) ->
  (Collection.size (collection L) = 0 -> isLoading L = false ->
   is_Some (layoutInfos L' !! skey "placeholder")) /\
  (0 < Collection.size (collection L) \/ isLoading L = true ->
   layoutInfos L' !! skey "placeholder" = layoutInfos L !! skey "placeholder").
Proof.
  intros Hb Hk. apply buildCollection_inv in Hb as (n & iw & hs & p & Hp & ->).
  unfold set_built; cbn [layoutInfos isLoading collection].
  rewrite placed_lookup_placeholder.
  apply layoutPass_inv in Hp as (_ & _ & _ & _ & Hrun).
  split.
  - intros -> ->. simpl. eauto.
  - intros Hc.
    assert ((Collection.size (collection L) =? 0) && negb (isLoading L) = false)
      as ->.
    { destruct Hc as [Hc | ->]; [| apply andb_false_r].
      destruct (Z.eqb_spec (Collection.size (collection L)) 0); [lia | reflexivity]. }
    rewrite (layoutNodes_frame _ _ _ _ _ _ _ _ Hrun Hk). reflexivity.
Qed.

(** What [validate] leaves in the cache, for a layout whose cache follows
    its previous collection. *)
Lemma validate_cache (ctx : InvalidationContext) (v : Virtualizer)
    (L L' : WaterfallLayout) :
  tracked L ->
  (forall k, In k (Collection.getKeys (v_collection v)) -> ~ synthetic k) ->
  validate ctx v L = Done L' ->
  tracked L' /\
  (forall k, ~ synthetic k ->
     (is_Some (layoutInfos L' !! k) <-> In k (Collection.getKeys (v_collection v)))) /\
  (is_Some (layoutInfos L' !! skey "loader") <-> isLoading L = true) /\
  (0 < Collection.size (v_collection v) ->
     layoutInfos L' !! skey "placeholder" = None) /\
  (Collection.size (v_collection v) = 0 -> isLoading L = false ->
     is_Some (layoutInfos L' !! skey "placeholder")).
Proof.
  intros Ht Hkeys Hv.
  apply validate_inv in Hv as (L1 & Hb & Hc1 & Hi1 & ->).
  assert (Hnl : ~ In (skey "loader") (Collection.getKeys (v_collection v))).
  { intros H. apply (Hkeys _ H). left. reflexivity. }
  assert (Hnp : ~ In (skey "placeholder") (Collection.getKeys (v_collection v))).
  { intros H. apply (Hkeys _ H). right. reflexivity. }
  pose proof (fun k => buildCollection_domain _ _ _ _ k Hb) as Hdom.
  destruct (buildCollection_loader _ _ _ _ Hb Hnl) as [Hl1 Hl0].
  destruct (buildCollection_placeholder _ _ _ _ Hb Hnp) as [Hp1 Hp0].
  simpl in Hdom, Hl1, Hl0, Hp1, Hp0.
  unfold tracked in Ht.
  assert (Hitems : forall k, ~ synthetic k ->
     (is_Some
        (layoutInfos
           (match lastCollection L with
            | Some last => removeStale last L1
            | None => L1
            end) !! k) <-> In k (Collection.getKeys (v_collection v)))).
  { intros k Hk. destruct (lastCollection L) as [last |].
    - destruct Ht as [Hlast Hcache].
      split.
      + intros Hsome.
        destruct (In_dec (fun a b : Key => decide (a = b)) k
                    (Collection.getKeys (v_collection v))) as [Hin | Hout];
          [assumption | exfalso].
        assert (Hold : is_Some (layoutInfos L !! k)).
        { rewrite removeStale_lookup_kept in Hsome.
          - apply Hdom in Hsome; tauto.
          - intros [Hin Hnone]. rewrite Hc1 in Hnone.
            pose proof (removeStale_lookup last L1 k Hin) as Hgone.
            rewrite Hc1 in Hgone. rewrite (Hgone Hnone) in Hsome.
            destruct Hsome; discriminate.
          - intros [-> _]. apply Hk. left. reflexivity.
          - intros [-> _]. apply Hk. right. reflexivity. }
        destruct (Hcache k Hold) as [Hin | Hsyn]; [| contradiction].
        pose proof (removeStale_lookup last L1 k Hin) as Hgone.
        rewrite Hc1 in Hgone. rewrite Hgone in Hsome.
        * destruct Hsome; discriminate.
        * apply getItem_None. assumption.
      + intros Hin. rewrite removeStale_lookup_kept.
        * apply Hdom; auto.
        * intros [_ Hnone]. rewrite Hc1 in Hnone.
          apply getItem_None in Hnone. contradiction.
        * intros [-> _]. apply Hk. left. reflexivity.
        * intros [-> _]. apply Hk. right. reflexivity.
    - rewrite (Hdom k Hk). rewrite Ht, lookup_empty.
      split; [intros [H | [x Hx]]; [assumption | discriminate] | auto]. }
  assert (Hloader :
     is_Some
       (layoutInfos
          (match lastCollection L with
           | Some last => removeStale last L1
           | None => L1
           end) !! skey "loader") <-> isLoading L = true).
  { destruct (isLoading L) eqn:Hload.
    - split; [reflexivity | intros _].
      destruct (lastCollection L) as [last |]; [| auto].
      destruct Ht as [Hlast _].
      rewrite removeStale_lookup_kept; [auto | | |].
      + intros [Hin _]. apply (Hlast _ Hin). left. reflexivity.
      + rewrite Hi1. intros [_ H]. discriminate.
      + intros [H _]. discriminate.
    - split; [| discriminate]. intros Hsome. exfalso.
      destruct (lastCollection L) as [last |].
      + rewrite removeStale_lookup_loader in Hsome by (rewrite Hi1; reflexivity).
        destruct Hsome; discriminate.
      + rewrite Hl0, Ht, lookup_empty in Hsome by reflexivity.
        destruct Hsome; discriminate. }
  split; [| split; [exact Hitems | split; [exact Hloader | split]]].
  - unfold tracked. simpl. split; [exact Hkeys |].
    intros k Hsome.
    destruct (decide (k = skey "loader")) as [-> | Hn1]; [right; left; reflexivity |].
    destruct (decide (k = skey "placeholder")) as [-> | Hn2];
      [right; right; reflexivity |].
    left. apply Hitems; [| exact Hsome]. intros [? | ?]; contradiction.
  - intros Hsize. simpl.
    destruct (lastCollection L) as [last |].
    + apply removeStale_lookup_placeholder. rewrite Hc1. assumption.
    + rewrite Hp0 by auto. rewrite Ht. apply lookup_empty.
  - intros Hsize Hload. simpl.
    destruct (lastCollection L) as [last |]; [| auto].
    destruct Ht as [Hlast _].
    rewrite removeStale_lookup_kept; [auto | | |].
    + intros [Hin _]. apply (Hlast _ Hin). right. reflexivity.
    + intros [H _]. discriminate.
    + rewrite Hc1. intros [_ H]. lia.
Qed.

(** ** Heights carried over by a build *)

Lemma layoutNode_carry L ctx iw hs p node p' k o :
  layoutNode L ctx iw hs p node = Done p' ->
  infos p !! k = Some o ->
  exists o',
    infos p' !! k = Some o' /\
    Rect.height (rect o') = Rect.height (rect o) /\
    (node_key node = k ->
       estimatedSize o' = sizeChanged ctx || estimatedSize o) /\
    (node_key node <> k -> o' = o).
Proof.
  intros Hstep Hk.
  apply layoutNode_inv in Hstep as (h & e & Hest & ->). simpl.
  destruct (decide (node_key node = k)) as [Heq | Hne].
  - rewrite Heq in *. rewrite Hk, estimateHeight_old in Hest.
    injection Hest as <- <-.
    rewrite lookup_insert_eq. eexists. split; [reflexivity |].
    simpl. split; [reflexivity |]. split; [reflexivity | contradiction].
  - rewrite lookup_insert_ne by assumption.
    exists o. split; [assumption |]. split; [reflexivity |].
    split; [contradiction | reflexivity].
Qed.

Lemma layoutNodes_carry L ctx iw hs nodes k :
  forall p p' o,
    layoutNodes L ctx iw hs nodes p = Done p' ->
    infos p !! k = Some o ->
    exists o',
      infos p' !! k = Some o' /\
      Rect.height (rect o') = Rect.height (rect o) /\
      (In k (Collection.getKeys nodes) ->
         estimatedSize o' = sizeChanged ctx || estimatedSize o) /\
      (~ In k (Collection.getKeys nodes) -> o' = o).
Proof.
  induction nodes as [| node rest IH]; intros p p' o Hrun Hk.
  - simpl in Hrun. injection Hrun as <-. exists o. simpl. tauto.
  - apply layoutNodes_cons in Hrun as (p1 & H1 & Hrest).
    destruct (layoutNode_carry _ _ _ _ _ _ _ _ _ H1 Hk)
      as (o1 & Hk1 & Hh1 & Hsame & Hother).
    destruct (IH _ _ _ Hrest Hk1) as (o' & Hk' & Hh' & Hin' & Hout').
    exists o'. split; [assumption |]. split; [congruence |].
    destruct (decide (node_key node = k)) as [Heq | Hne].
    + split.
      * intros _.
        destruct (In_dec (fun a b : Key => decide (a = b)) k
                    (Collection.getKeys rest)) as [Hin | Hout].
        -- rewrite (Hin' Hin), (Hsame Heq).
           destruct (sizeChanged ctx); reflexivity.
        -- rewrite (Hout' Hout). apply Hsame. assumption.
      * intros Hnot. exfalso. apply Hnot. simpl. auto.
    + rewrite (Hother Hne) in *. split.
      * intros [Heq | Hin]; [contradiction | auto].
      * intros Hnot. apply Hout'. intros Hin. apply Hnot. simpl. auto.
Qed.

(** X8: a build keeps the height of every entry it finds in the cache under
    a key that is not synthetic.  If the key belongs to the collection, the
    entry is marked as estimated when the viewport size changed and keeps its
    mark otherwise; if it does not, the entry is left exactly as it was. *)
Theorem buildCollection_keeps_heights (ctx : InvalidationContext) (v : Virtualizer)
    (L L' : WaterfallLayout) (k : Key) (o : LayoutInfo) :
  buildCollection ctx v L = Done L' ->
  ~ synthetic k ->
  layoutInfos L !! k = Some o ->
  exists o',
    layoutInfos L' !! k = Some o' /\
    Rect.height (rect o') = Rect.height (rect o) /\
    (In k (Collection.getKeys (collection L)) ->
       estimatedSize o' = sizeChanged ctx || estimatedSize o) /\
    (~ In k (Collection.getKeys (collection L)) -> o' = o).
Proof.
  intros Hb Hk Ho.
  destruct (buildCollection_lookup_item _ _ _ _ _ Hb Hk)
    as (n & iw & hs & p & Hp & _ & _ & _ & ->).
  apply layoutPass_inv in Hp as (_ & _ & _ & _ & Hrun).
  apply (layoutNodes_carry _ _ _ _ _ _ _ _ _ Hrun Ho).
Qed.

(** ** Running the build again *)

(** The loop reads the configuration and nothing else of the layout. *)
Lemma layoutNodes_config L1 L2 ctx iw hs nodes :
  minItemSize L1 = minItemSize L2 ->
  maxItemSize L1 = maxItemSize L2 ->
  margin L1 = margin L2 ->
  minSpace L1 = minSpace L2 ->
  itemPadding L1 = itemPadding L2 ->
  forall p, layoutNodes L1 ctx iw hs nodes p = layoutNodes L2 ctx iw hs nodes p.
Proof.
  intros H1 H2 H3 H4 H5.
  induction nodes as [| node rest IH]; intros p; simpl; [reflexivity |].
  assert (Hstep : layoutNode L1 ctx iw hs p node = layoutNode L2 ctx iw hs p node).
  { unfold layoutNode, estimateHeight. rewrite H1, H2, H3, H4, H5. reflexivity. }
  rewrite Hstep. destruct (layoutNode L2 ctx iw hs p node); simpl; auto.
Qed.

Lemma layoutNodes_rerun L ctx iw hs nodes :
  forall p p' m2 pl,
    NoDup (Collection.getKeys nodes) ->
    layoutNodes L ctx iw hs nodes p = Done p' ->
    (forall k, In k (Collection.getKeys nodes) -> m2 !! k = infos p' !! k) ->
    exists pl',
      layoutNodes L ctx iw hs nodes (mkPass (columnHeights p) m2 pl)
      = Done (mkPass (columnHeights p') m2 pl').
Proof.
  induction nodes as [| node rest IH]; intros p p' m2 pl Hnd Hrun Hm.
  - simpl in Hrun. injection Hrun as <-. exists pl. reflexivity.
  - apply layoutNodes_cons in Hrun as (p1 & H1 & Hrest).
    simpl in Hnd. apply NoDup_cons in Hnd as [Hfresh Hnd].
    rewrite list_elem_of_In in Hfresh.
    pose proof H1 as Hinv.
    apply layoutNode_inv in Hinv as (h & e & Hest & Hp1).
    assert (Hentry : m2 !! node_key node = infos p1 !! node_key node).
    { rewrite (Hm (node_key node)) by (simpl; auto).
      apply (layoutNodes_frame _ _ _ _ _ _ _ _ Hrest Hfresh). }
    assert (He : sizeChanged ctx || e = e).
    { pose proof (estimateHeight_flag_absorb L ctx iw
                    (infos p !! node_key node) node) as Ha.
      rewrite Hest in Ha. exact Ha. }
    assert (Hstep2 : exists pl1,
      layoutNode L ctx iw hs (mkPass (columnHeights p) m2 pl) node
      = Done (mkPass (columnHeights p1) m2 pl1)).
    { unfold layoutNode. cbn [infos columnHeights placed].
      rewrite Hentry, Hp1. cbn [infos columnHeights].
      rewrite lookup_insert_eq, estimateHeight_old. cbn [rect Rect.height estimatedSize].
      rewrite He. eexists. f_equal. f_equal.
      apply insert_id.
      rewrite Hentry, Hp1. cbn [infos]. rewrite lookup_insert_eq. reflexivity. }
    destruct Hstep2 as [pl1 Hstep2].
    destruct (IH p1 p' m2 pl1 Hnd Hrest) as [pl' Hrest2].
    { intros k Hk. apply Hm. simpl. auto. }
    exists pl'. simpl. rewrite Hstep2. simpl. exact Hrest2.
Qed.

Lemma buildCollection_keeps_heights_witness :
  exists o',
    layoutInfos oneCardRebuilt !! skey "a" = Some o' /\
    Rect.height (rect o')
    = Rect.height (rect (mkLayoutInfo "item" (skey "a") (Rect.mk 24 24 240 240) true)) /\
    (In (skey "a") (Collection.getKeys (collection oneCardCollection)) ->
       estimatedSize o'
       = sizeChanged noResize
         || estimatedSize
              (mkLayoutInfo "item" (skey "a") (Rect.mk 24 24 240 240) true)) /\
    (~ In (skey "a") (Collection.getKeys (collection oneCardCollection)) ->
       o' = mkLayoutInfo "item" (skey "a") (Rect.mk 24 24 240 240) true).
Proof.
  apply (buildCollection_keeps_heights noResize (viewport [item "a"] 800 600)
           oneCardCollection oneCardRebuilt (skey "a")).
  - vm_compute. reflexivity.
  - intros [H | H]; discriminate.
  - apply lookup_singleton_eq.
Defined.

(** ** Calling validate again *)

Lemma layout_ext (A B : WaterfallLayout) :
  minItemSize A = minItemSize B -> maxItemSize A = maxItemSize B ->
  margin A = margin B -> minSpace A = minSpace B ->
  maxColumns A = maxColumns B -> itemPadding A = itemPadding B ->
  numColumns A = numColumns B -> itemWidth A = itemWidth B ->
  horizontalSpacing A = horizontalSpacing B ->
  layoutInfos A = layoutInfos B -> lastCollection A = lastCollection B ->
  collection A = collection B -> isLoading A = isLoading B ->
  direction A = direction B -> contentSize A = contentSize B ->
  A = B.
Proof.
  destruct A, B. simpl. intros. subst. reflexivity.
Qed.

Lemma evict_fold_same (c : Collection.t) (keys : list Key) :
  forall m : gmap Key LayoutInfo,
    (forall k, In k keys -> In k (Collection.getKeys c)) ->
    fold_left
      (fun m key =>
         match Collection.getItem c key with
         | None => delete key m
         | Some _ => m
         end) keys m = m.
Proof.
  induction keys as [| key keys IH]; intros m H; simpl; [reflexivity |].
  destruct (Collection.getItem c key) eqn:Hc.
  - apply IH. intros k Hk. apply H. simpl. auto.
  - apply getItem_None in Hc. exfalso. apply Hc, H. simpl. auto.
Qed.

(** The height of the content does not depend on the cache. *)
Lemma placed_snd L v m m' y :
  snd (placePlaceholder L v (placeLoader L v (m, y)))
  = snd (placePlaceholder L v (placeLoader L v (m', y))).
Proof.
  unfold placePlaceholder, placeLoader.
  destruct (isLoading L); simpl;
    destruct (Collection.size (collection L) =? 0); reflexivity.
Qed.

Lemma place_config A B v st :
  isLoading A = isLoading B ->
  collection A = collection B ->
  placePlaceholder A v (placeLoader A v st) = placePlaceholder B v (placeLoader B v st).
Proof.
  intros Hi Hc. destruct st as [m y].
  unfold placePlaceholder, placeLoader, loaderRect. rewrite Hi, Hc. reflexivity.
Qed.

(** X11: [validate] is idempotent.  For a layout whose cache follows its
    previous collection and a collection with distinct keys, none of them
    synthetic: when [validate] returns a layout, calling it again on that
    layout, with the same collection, viewport and invalidation context,
    returns the very same layout (same cache, same content size). *)
Theorem validate_idempotent (ctx : InvalidationContext) (v : Virtualizer)
    (L L1 : WaterfallLayout) :
  tracked L ->
  NoDup (Collection.getKeys (v_collection v)) ->
  (forall k, In k (Collection.getKeys (v_collection v)) -> ~ synthetic k) ->
  validate ctx v L = Done L1 ->
  validate ctx v L1 = Done L1.
Proof.
  intros Ht Hnd Hkeys Hv.
  destruct (validate_cache _ _ _ _ Ht Hkeys Hv)
    as (Ht1 & Hitems & Hloader & Hph0 & Hph1).
  apply validate_inv in Hv as (B1 & Hb & Hc1 & Hi1 & HL1).
  apply buildCollection_inv in Hb as (n & iw & hs & p & Hp & HB1).
  apply layoutPass_inv in Hp as (Hn & Hrange & Hiw & Hhs & Hrun).
  unfold tracked in Ht.
  set (L0 := set_collection (v_collection v) L) in *.
  set (maxH := maxHeightOf L0 p) in *.
  assert (Hnl : ~ In (skey "loader") (Collection.getKeys (v_collection v))).
  { intros H. apply (Hkeys _ H). left. reflexivity. }
  assert (Hnp : ~ In (skey "placeholder") (Collection.getKeys (v_collection v))).
  { intros H. apply (Hkeys _ H). right. reflexivity. }
  (* what the first call left in the cache *)
  assert (HB1k : forall k, ~ synthetic k -> layoutInfos B1 !! k = infos p !! k).
  { intros k Hk. rewrite HB1. unfold set_built; cbn [layoutInfos].
    apply placed_lookup_other. assumption. }
  assert (Ha : forall k, In k (Collection.getKeys (v_collection v)) ->
                         layoutInfos L1 !! k = infos p !! k).
  { intros k Hk. rewrite <- (HB1k k (Hkeys k Hk)). rewrite HL1.
    destruct (lastCollection L) as [last |]; [| reflexivity].
    cbn [set_lastCollection layoutInfos].
    apply removeStale_lookup_kept.
    - rewrite Hc1. intros [_ Hnone]. apply getItem_None in Hnone. contradiction.
    - intros [-> _]. contradiction.
    - intros [-> _]. contradiction. }
  assert (Hbl : isLoading L = true ->
     layoutInfos L1 !! skey "loader"
     = Some (newLayoutInfo "loader" (skey "loader") (loaderRect L0 v maxH))).
  { intros Hload.
    assert (HB : layoutInfos B1 !! skey "loader"
                 = Some (newLayoutInfo "loader" (skey "loader") (loaderRect L0 v maxH))).
    { rewrite HB1. unfold set_built; cbn [layoutInfos].
      rewrite placed_lookup_loader. subst L0. cbn [isLoading set_collection].
      rewrite Hload. reflexivity. }
    rewrite <- HB, HL1.
    destruct (lastCollection L) as [last |]; [| reflexivity].
    cbn [set_lastCollection layoutInfos].
    destruct Ht as [Hlast _].
    apply removeStale_lookup_kept.
    - intros [Hin _]. apply (Hlast _ Hin). left. reflexivity.
    - rewrite Hi1, Hload. intros [_ H]. discriminate.
    - intros [H _]. discriminate. }
  assert (Hbp : Collection.size (v_collection v) = 0 -> isLoading L = false ->
     layoutInfos L1 !! skey "placeholder"
     = Some (newLayoutInfo "placeholder" (skey "placeholder")
               (Rect.mk 0 0 (Rect.width (visibleRect v))
                  (Rect.height (visibleRect v))))).
  { intros Hsize Hload.
    assert (HB : layoutInfos B1 !! skey "placeholder"
                 = Some (newLayoutInfo "placeholder" (skey "placeholder")
                           (Rect.mk 0 0 (Rect.width (visibleRect v))
                              (Rect.height (visibleRect v))))).
    { rewrite HB1. unfold set_built; cbn [layoutInfos].
      rewrite placed_lookup_placeholder. subst L0.
      cbn [isLoading collection set_collection].
      rewrite Hload, Hsize. reflexivity. }
    rewrite <- HB, HL1.
    destruct (lastCollection L) as [last |]; [| reflexivity].
    cbn [set_lastCollection layoutInfos].
    destruct Ht as [Hlast _].
    apply removeStale_lookup_kept.
    - intros [Hin _]. apply (Hlast _ Hin). right. reflexivity.
    - intros [H _]. discriminate.
    - rewrite Hc1, Hsize. intros [_ H]. lia. }
  (* the fields of [L1] *)
  assert (HF : minItemSize L1 = minItemSize L0 /\ maxItemSize L1 = maxItemSize L0 /\
               margin L1 = margin L0 /\ minSpace L1 = minSpace L0 /\
               maxColumns L1 = maxColumns L0 /\ itemPadding L1 = itemPadding L0 /\
               numColumns L1 = n /\ itemWidth L1 = iw /\ horizontalSpacing L1 = hs /\
               lastCollection L1 = Some (v_collection v) /\
               collection L1 = v_collection v /\ isLoading L1 = isLoading L0 /\
               contentSize L1 =
                 Size.mk (Rect.width (visibleRect v))
                   (snd (placePlaceholder L0 v (placeLoader L0 v (infos p, maxH))))).
  { rewrite HL1, HB1. destruct (lastCollection L); repeat split; reflexivity. }
  destruct HF as (F1 & F2 & F3 & F4 & F5 & F6 & F7 & F8 & F9 & F10 & F11 & F12 & F13).
  set (L1' := set_collection (v_collection v) L1).
  assert (HL1' : L1' = L1).
  { apply layout_ext; try reflexivity. subst L1'. simpl. symmetry. exact F11. }
  unfold validate. fold L1'. rewrite HL1'.
  (* the second loop *)
  destruct (layoutNodes_rerun L0 ctx iw hs (v_collection v)
              (mkPass (replicate (Z.to_nat n) (margin L0)) (layoutInfos L0) [])
              p (layoutInfos L1) [] Hnd Hrun Ha) as [pl' Hrun2].
  cbn [columnHeights] in Hrun2.
  assert (Hpass2 : layoutPass L1 ctx v
                   = Done (n, iw, hs, mkPass (columnHeights p) (layoutInfos L1) pl')).
  { unfold layoutPass.
    assert (computeNumColumns L1 (Rect.width (visibleRect v))
            = computeNumColumns L0 (Rect.width (visibleRect v))) as ->.
    { unfold computeNumColumns. rewrite F1, F4, F5. reflexivity. }
    rewrite Hn.
    assert (computeItemWidth L1 (Rect.width (visibleRect v)) n = iw) as ->.
    { rewrite Hiw. unfold computeItemWidth. rewrite F1, F2, F3, F4. reflexivity. }
    assert (computeHorizontalSpacing L1 (Rect.width (visibleRect v)) n iw = hs) as ->.
    { rewrite Hhs. unfold computeHorizontalSpacing. rewrite F3. reflexivity. }
    destruct (Z.leb_spec (2 ^ 32) n); [lia |].
    rewrite F3, F11.
    rewrite (layoutNodes_config L1 L0) by assumption.
    rewrite Hrun2. reflexivity. }
  unfold buildCollection. rewrite Hpass2. cbn [bind].
  assert (HmaxH : maxHeightOf L1 (mkPass (columnHeights p) (layoutInfos L1) pl') = maxH).
  { unfold maxH, maxHeightOf. cbn [columnHeights]. rewrite F3, F4. reflexivity. }
  rewrite HmaxH. cbn [infos].
  rewrite (place_config L1 L0) by assumption.
  assert (Hfst : fst (placePlaceholder L0 v (placeLoader L0 v (layoutInfos L1, maxH)))
                 = layoutInfos L1).
  { apply map_eq. intros k.
    destruct (decide (k = skey "loader")) as [-> | Hn1].
    - rewrite placed_lookup_loader.
      destruct (isLoading L0) eqn:Hload; [| reflexivity].
      symmetry. apply Hbl. exact Hload.
    - destruct (decide (k = skey "placeholder")) as [-> | Hn2].
      + rewrite placed_lookup_placeholder.
        destruct (Z.eqb_spec (Collection.size (collection L0)) 0) as [Hs | Hs];
          [| reflexivity].
        destruct (isLoading L0) eqn:Hload; [reflexivity |].
        symmetry. apply Hbp; assumption.
      + apply placed_lookup_other. intros [? | ?]; contradiction. }
  destruct (placePlaceholder L0 v (placeLoader L0 v (layoutInfos L1, maxH)))
    as [m2 y2] eqn:Hplace.
  simpl in Hfst. subst m2.
  assert (Hy2 : y2 = snd (placePlaceholder L0 v (placeLoader L0 v (infos p, maxH)))).
  { rewrite (placed_snd L0 v (infos p) (layoutInfos L1) maxH), Hplace. reflexivity. }
  cbn [bind].
  assert (HB2 : set_built n iw hs (layoutInfos L1)
                  (Size.mk (Rect.width (visibleRect v)) y2) L1 = L1).
  { apply layout_ext; try reflexivity; unfold set_built; simpl;
      try (symmetry; assumption).
    rewrite F13, Hy2. reflexivity. }
  rewrite HB2, F10.
  assert (HR : removeStale (v_collection v) L1 = L1).
  { apply layout_ext; try reflexivity.
    unfold removeStale, set_layoutInfos. cbn [layoutInfos].
    rewrite F11.
    rewrite evict_fold_same by auto.
    rewrite F12.
    assert (Hd1 : (if negb (isLoading L0)
                   then delete (skey "loader") (layoutInfos L1)
                   else layoutInfos L1) = layoutInfos L1).
    { destruct (isLoading L0) eqn:Hload; simpl; [reflexivity |].
      apply delete_id.
      apply eq_None_not_Some. intros Hs.
      apply Hloader in Hs. subst L0. simpl in Hload. congruence. }
    rewrite Hd1.
    destruct (Z.ltb_spec 0 (Collection.size (v_collection v))); [| reflexivity].
    apply delete_id. auto. }
  rewrite HR. f_equal.
  apply layout_ext; try reflexivity. simpl. rewrite F11, F10. reflexivity.
Qed.


Lemma validate_idempotent_witness :
  validate noResize (viewport [item "a"; item "b"] 800 600) afterTwoCards
  = Done afterTwoCards.
Proof.
  apply (validate_idempotent noResize (viewport [item "a"; item "b"] 800 600)
           defaultLayout afterTwoCards).
  - reflexivity.
  - compute_done.
  - intros k [<- | [<- | []]] [H | H]; discriminate.
  - vm_compute. reflexivity.
Defined.

(** ** Where the items are placed *)

Lemma max_of_ge (l : list Z) (c : nat) :
  (c < length l)%nat -> l !!! c <= max_of l.
Proof.
  destruct l as [| h t]; simpl; [lia |].
  intros Hc.
  assert (Hfold : forall t a, a <= fold_left Z.max t a /\
            forall i, (i < length t)%nat -> t !!! i <= fold_left Z.max t a).
  { clear. induction t as [| x t IH]; intros a; simpl.
    - split; [lia | intros i Hi; lia].
    - destruct (IH (Z.max a x)) as [Ha Hi]. split; [lia |].
      intros [| i] Hlt; simpl.
      + change ((x :: t) !!! 0%nat) with x. lia.
      + change ((x :: t) !!! S i) with (t !!! i). apply Hi. lia. }
  destruct (Hfold t h) as [Hh Ht].
  destruct c as [| c].
  - exact Hh.
  - change ((h :: t) !!! S c) with (t !!! c). apply Ht. lia.
Qed.

Section Geometry.

Variable L : WaterfallLayout.
Variable ctx : InvalidationContext.
Variables iw hs : Z.

Hypothesis Hspace : 0 <= Size.height (minSpace L).
Hypothesis Hwidth : 0 <= iw.
Hypothesis Hmin : 0 <= Size.height (minItemSize L) + itemPadding L.

Lemma estimateHeight_nonneg old node h e :
  (forall o, old = Some o -> 0 <= Rect.height (rect o)) ->
  estimateHeight L ctx iw old node = (Num h, e) ->
  0 <= h.
Proof.
  intros Hold. unfold estimateHeight.
  destruct old as [o |].
  - intros [= <- _]. apply Hold. reflexivity.
  - destruct (props_width node) as [w |]; [| intros [= <- _]; assumption].
    destruct (props_height node) as [nh |]; [| intros [= <- _]; assumption].
    destruct (truthy w && truthy nh) eqn:Hg; [| intros [= <- _]; assumption].
    apply andb_true_iff in Hg as [_ Hh]. apply truthy_nonzero in Hh.
    rewrite js_scale_round_nonzero by assumption.
    rewrite xmin_bound_num. simpl. intros [= <- _]. lia.
Qed.

Lemma stacked_step p node p' (S S' : Key -> Prop) :
  stacked L iw hs p S ->
  layoutNode L ctx iw hs p node = Done p' ->
  (forall k, S' k -> k = node_key node \/ S k) ->
  stacked L iw hs p' S'.
Proof.
  intros (Hne & Hlow & Hpos & Hplaced & Hsep) Hstep HS.
  pose proof (getNextColumnIndex_argmin _ Hne) as (Hc & _ & _).
  apply layoutNode_inv in Hstep as (h & e & Hest & ->).
  set (c := getNextColumnIndex (columnHeights p)) in *.
  assert (Hh : 0 <= h).
  { eapply estimateHeight_nonneg; [| exact Hest].
    intros o Ho. apply (Hpos _ _ Ho). }
  assert (Hgrow : forall c', columnHeights p !!! c'
       <= <[c := columnHeights p !!! c + (h + Size.height (minSpace L))]>
            (columnHeights p) !!! c').
  { intros c'. destruct (decide (c = c')) as [<- | Hcc].
    - rewrite list_lookup_total_insert_eq by assumption. lia.
    - rewrite list_lookup_total_insert_ne by assumption. lia. }
  assert (Hplaced' : forall k, S' k ->
     exists e0 c0,
       <[node_key node :=
           mkLayoutInfo (node_type node) (node_key node)
             (Rect.mk (margin L + Z.of_nat c * (iw + hs))
                (columnHeights p !!! c) iw h) e]> (infos p) !! k = Some e0 /\
       (c0 < length (columnHeights p))%nat /\
       Rect.x (rect e0) = margin L + Z.of_nat c0 * (iw + hs) /\
       margin L <= Rect.y (rect e0) /\
       Rect.maxY (rect e0) + Size.height (minSpace L)
       <= <[c := columnHeights p !!! c + (h + Size.height (minSpace L))]>
            (columnHeights p) !!! c0).
  { intros k Hk.
    destruct (decide (node_key node = k)) as [<- | Hkk].
    - rewrite lookup_insert_eq. eexists. exists c.
      split; [reflexivity |]. split; [assumption |].
      cbn [rect Rect.x Rect.y]. unfold Rect.maxY. cbn [rect Rect.y Rect.height].
      rewrite list_lookup_total_insert_eq by assumption.
      specialize (Hlow c Hc). repeat split; lia.
    - rewrite lookup_insert_ne by assumption.
      destruct (HS k Hk) as [-> | HSk]; [contradiction |].
      destruct (Hplaced k HSk) as (e0 & c0 & He0 & Hc0 & Hx & Hy & Hm).
      exists e0, c0. specialize (Hgrow c0). repeat split; try assumption. lia. }
  unfold stacked. cbn [columnHeights infos].
  rewrite length_insert.
  split.
  { intros Hnil. apply Hne. apply (f_equal length) in Hnil.
    rewrite length_insert in Hnil. destruct (columnHeights p); [reflexivity | discriminate]. }
  split.
  { intros c' Hc'. specialize (Hlow c' Hc'). specialize (Hgrow c'). lia. }
  split.
  { intros k e0. destruct (decide (node_key node = k)) as [<- | Hkk].
    - rewrite lookup_insert_eq. intros [= <-]. exact Hh.
    - rewrite lookup_insert_ne by assumption. apply Hpos. }
  split; [exact Hplaced' |].
  intros Hcols k1 k2 e1 e2 H1 H2 Hk He1 He2 Hx.
  destruct (decide (node_key node = k1)) as [Hk1 | Hk1];
    destruct (decide (node_key node = k2)) as [Hk2 | Hk2].
  - congruence.
  - (* the new entry is [e1] *)
    subst k1. rewrite lookup_insert_eq in He1. injection He1 as <-.
    rewrite lookup_insert_ne in He2 by assumption.
    destruct (HS k2 H2) as [-> | HS2]; [contradiction |].
    destruct (Hplaced k2 HS2) as (e0 & c0 & He0 & Hc0 & Hx0 & Hy0 & Hm0).
    rewrite He2 in He0. injection He0 as <-.
    cbn [rect Rect.x Rect.y] in *.
    assert (c0 = c) by (apply Nat2Z.inj; nia). subst c0.
    right. exact Hm0.
  - subst k2. rewrite lookup_insert_eq in He2. injection He2 as <-.
    rewrite lookup_insert_ne in He1 by assumption.
    destruct (HS k1 H1) as [-> | HS1]; [contradiction |].
    destruct (Hplaced k1 HS1) as (e0 & c0 & He0 & Hc0 & Hx0 & Hy0 & Hm0).
    rewrite He1 in He0. injection He0 as <-.
    cbn [rect Rect.x Rect.y] in *.
    assert (c0 = c) by (apply Nat2Z.inj; nia). subst c0.
    left. exact Hm0.
  - rewrite lookup_insert_ne in He1, He2 by assumption.
    destruct (HS k1 H1) as [-> | HS1]; [contradiction |].
    destruct (HS k2 H2) as [-> | HS2]; [contradiction |].
    exact (Hsep Hcols k1 k2 e1 e2 HS1 HS2 Hk He1 He2 Hx).
Qed.

Lemma stacked_run nodes :
  forall p p' (S S' : Key -> Prop),
    stacked L iw hs p S ->
    layoutNodes L ctx iw hs nodes p = Done p' ->
    (forall k, S' k -> In k (Collection.getKeys nodes) \/ S k) ->
    stacked L iw hs p' S'.
Proof.
  induction nodes as [| node rest IH]; intros p p' S S' Hst Hrun HS.
  - simpl in Hrun. injection Hrun as <-.
    destruct Hst as (H1 & H2 & H3 & H4 & H5).
    assert (HSS : forall k, S' k -> S k).
    { intros k Hk. destruct (HS k Hk) as [[] | ?]; assumption. }
    repeat split; auto.
    intros Hcols k1 k2 e1 e2 Hk1 Hk2. apply H5; auto.
  - apply layoutNodes_cons in Hrun as (p1 & Hstep & Hrest).
    apply (IH p1 p' (fun k => k = node_key node \/ S k) S'); [| assumption |].
    + eapply stacked_step; eauto.
    + intros k Hk. destruct (HS k Hk) as [[<- | Hin] | HSk]; auto.
Qed.

End Geometry.

Lemma computeItemWidth_min L w n :
  Size.width (minItemSize L) <= computeItemWidth L w n.
Proof. unfold computeItemWidth. lia. Qed.

Lemma content_height_ge L v m y :
  Collection.size (collection L) <> 0 ->
  y <= snd (placePlaceholder L v (placeLoader L v (m, y))).
Proof.
  intros Hsize. unfold placePlaceholder, placeLoader, loaderRect.
  destruct (Z.eqb_spec (Collection.size (collection L)) 0); [contradiction |].
  destruct (isLoading L); simpl; unfold Rect.maxY; simpl; lia.
Qed.

Lemma size_nonempty (c : Collection.t) k :
  In k (Collection.getKeys c) -> Collection.size c <> 0.
Proof.
  destruct c; simpl; [tauto |]. intros _. unfold Collection.size. simpl. lia.
Qed.

Lemma stacked_initial L iw hs n :
  1 <= n ->
  nonnegative L ->
  stacked L iw hs
    (mkPass (replicate (Z.to_nat n) (margin L)) (layoutInfos L) [])
    (fun _ => False).
Proof.
  intros Hn (_ & _ & _ & _ & Hpos).
  unfold stacked. cbn [columnHeights infos].
  rewrite length_replicate.
  split.
  { intros Hnil. apply (f_equal length) in Hnil.
    rewrite length_replicate in Hnil. simpl in Hnil. lia. }
  split.
  { intros c Hc. rewrite lookup_total_replicate_2 by assumption. lia. }
  split; [exact Hpos |].
  split; [intros k [] |].
  intros _ k1 k2 e1 e2 [].
Qed.

Lemma buildCollection_stacked ctx v L L' :
  nonnegative L ->
  buildCollection ctx v L = Done L' ->
  exists p,
    stacked L (itemWidth L') (horizontalSpacing L') p
      (fun k => In k (Collection.getKeys (collection L))) /\
    (forall k, ~ synthetic k -> layoutInfos L' !! k = infos p !! k) /\
    (Collection.size (collection L) <> 0 ->
     max_of (columnHeights p) - Size.height (minSpace L) + margin L
     <= Size.height (contentSize L')).
Proof.
  intros Hnn Hb.
  apply buildCollection_inv in Hb as (n & iw & hs & p & Hp & ->).
  apply layoutPass_inv in Hp as (_ & Hrange & Hiw & _ & Hrun).
  destruct Hnn as (Hm & Hsp & Hw & Hmp & Hpos).
  exists p. unfold set_built. cbn [itemWidth horizontalSpacing layoutInfos contentSize].
  split; [| split].
  - eapply (stacked_run L ctx iw hs Hsp); [| | | exact Hrun |].
    + rewrite Hiw. pose proof (computeItemWidth_min L (Rect.width (visibleRect v)) n).
      lia.
    + assumption.
    + apply stacked_initial; [lia |]. repeat split; assumption.
    + intros k Hk. left. exact Hk.
  - intros k Hk. apply placed_lookup_other. assumption.
  - intros Hsize. cbn [Size.height].
    apply (content_height_ge L v (infos p) (maxHeightOf L p) Hsize).
Qed.

(** X4: for a configuration and a cache without negative lengths, every
    item of the collection (under a key that is not synthetic) gets a
    rectangle that starts at or below the top margin, has a non-negative
    height, and ends inside the content: its bottom edge is at most the
    height of the content size. *)
Theorem items_within_content (ctx : InvalidationContext) (v : Virtualizer)
    (L L' : WaterfallLayout) (k : Key) :
  nonnegative L ->
  buildCollection ctx v L = Done L' ->
  In k (Collection.getKeys (collection L)) ->
  ~ synthetic k ->
  exists e,
    layoutInfos L' !! k = Some e /\
    margin L <= Rect.y (rect e) /\
    0 <= Rect.height (rect e) /\
    Rect.maxY (rect e) <= Size.height (contentSize L').
Proof.
  intros Hnn Hb Hk Hsyn.
  destruct (buildCollection_stacked ctx v L L' Hnn Hb) as (p & Hst & Hlook & Hcs).
  destruct Hst as (_ & _ & Hpos & Hplaced & _).
  destruct (Hplaced k Hk) as (e & c & He & Hc & _ & Hy & Hm).
  exists e. rewrite (Hlook k Hsyn).
  split; [assumption |]. split; [assumption |].
  split; [apply (Hpos _ _ He) |].
  specialize (Hcs (size_nonempty _ _ Hk)).
  pose proof (max_of_ge _ _ Hc).
  destruct Hnn as (Hm0 & _). lia.
Qed.

(** X5: for a configuration and a cache without negative lengths, and
    columns that do not coincide ([itemWidth + horizontalSpacing <> 0]): two
    items of the collection with different keys whose rectangles have the
    same [x] never overlap; one ends at least [minSpace.height] above the
    start of the other. *)
Theorem column_items_apart (ctx : InvalidationContext) (v : Virtualizer)
    (L L' : WaterfallLayout) (k1 k2 : Key) (e1 e2 : LayoutInfo) :
  nonnegative L ->
  buildCollection ctx v L = Done L' ->
  itemWidth L' + horizontalSpacing L' <> 0 ->
  In k1 (Collection.getKeys (collection L)) ->
  In k2 (Collection.getKeys (collection L)) ->
  ~ synthetic k1 -> ~ synthetic k2 ->
  k1 <> k2 ->
  layoutInfos L' !! k1 = Some e1 ->
  layoutInfos L' !! k2 = Some e2 ->
  Rect.x (rect e1) = Rect.x (rect e2) ->
  Rect.maxY (rect e1) + Size.height (minSpace L) <= Rect.y (rect e2) \/
  Rect.maxY (rect e2) + Size.height (minSpace L) <= Rect.y (rect e1).
Proof.
  intros Hnn Hb Hcols Hk1 Hk2 Hs1 Hs2 Hne He1 He2 Hx.
  destruct (buildCollection_stacked ctx v L L' Hnn Hb) as (p & Hst & Hlook & _).
  destruct Hst as (_ & _ & _ & _ & Hsep).
  rewrite (Hlook k1 Hs1) in He1. rewrite (Hlook k2 Hs2) in He2.
  exact (Hsep Hcols k1 k2 e1 e2 Hk1 Hk2 Hne He1 He2 Hx).
Qed.

(** ** The column grid *)

Lemma onGrid_run L ctx iw hs nodes :
  forall p p' (S S' : Key -> Prop),
    onGrid L iw hs p S ->
    layoutNodes L ctx iw hs nodes p = Done p' ->
    (forall k, S' k -> In k (Collection.getKeys nodes) \/ S k) ->
    onGrid L iw hs p' S'.
Proof.
  induction nodes as [| node rest IH]; intros p p' S S' [Hne Hg] Hrun HS.
  - simpl in Hrun. injection Hrun as <-. split; [assumption |].
    intros k Hk. destruct (HS k Hk) as [[] | HSk]. auto.
  - apply layoutNodes_cons in Hrun as (p1 & Hstep & Hrest).
    apply (IH p1 p' (fun k => k = node_key node \/ S k) S'); [| assumption |].
    + pose proof (getNextColumnIndex_argmin _ Hne) as (Hc & _ & _).
      apply layoutNode_inv in Hstep as (h & e & _ & ->).
      unfold onGrid. cbn [columnHeights infos]. rewrite length_insert.
      split.
      { intros Hnil. apply Hne. apply (f_equal length) in Hnil.
        rewrite length_insert in Hnil.
        destruct (columnHeights p); [reflexivity | discriminate]. }
      intros k Hk.
      destruct (decide (node_key node = k)) as [<- | Hkk].
      * rewrite lookup_insert_eq. eexists. eexists.
        split; [reflexivity |]. split; [exact Hc |]. repeat split.
      * rewrite lookup_insert_ne by assumption.
        destruct Hk as [-> | Hk]; [contradiction |]. apply Hg. assumption.
    + intros k Hk. destruct (HS k Hk) as [[<- | Hin] | HSk]; auto.
Qed.

(** X3: after a build, every item of the collection (under a key that is
    not synthetic) has an entry under its own key whose rectangle sits in one
    of the [numColumns] columns, at [x = margin + column * (itemWidth +
    horizontalSpacing)], and has the item width, which is at least
    [minItemSize.width]. *)
Theorem items_on_grid (ctx : InvalidationContext) (v : Virtualizer)
    (L L' : WaterfallLayout) (k : Key) :
  buildCollection ctx v L = Done L' ->
  In k (Collection.getKeys (collection L)) ->
  ~ synthetic k ->
  exists e column,
    layoutInfos L' !! k = Some e /\
    li_key e = k /\
    0 <= column < numColumns L' /\
    Rect.x (rect e)
      = margin L + column * (itemWidth L' + horizontalSpacing L') /\
    Rect.width (rect e) = itemWidth L' /\
    Size.width (minItemSize L) <= itemWidth L'.
Proof.
  intros Hb Hk Hsyn.
  destruct (buildCollection_lookup_item _ _ _ _ _ Hb Hsyn)
    as (n & iw & hs & p & Hp & -> & -> & -> & ->).
  apply layoutPass_inv in Hp as (_ & Hrange & Hiw & _ & Hrun).
  assert (Hinit : onGrid L iw hs
            (mkPass (replicate (Z.to_nat n) (margin L)) (layoutInfos L) [])
            (fun _ => False)).
  { split; [| intros ? []]. cbn [columnHeights].
    intros Hnil. apply (f_equal length) in Hnil.
    rewrite length_replicate in Hnil. simpl in Hnil. lia. }
  pose proof (onGrid_run L ctx iw hs _ _ _ _
                (fun k => In k (Collection.getKeys (collection L)))
                Hinit Hrun (fun k H => or_introl H)) as [_ Hg].
  destruct (Hg k Hk) as (e & c & He & Hc & Hkey & Hx & Hw).
  rewrite (layoutNodes_length _ _ _ _ _ _ _ Hrun) in Hc.
  cbn [columnHeights] in Hc. rewrite length_replicate in Hc.
  exists e, (Z.of_nat c). repeat split; try assumption; try lia.
  rewrite Hiw. apply computeItemWidth_min.
Qed.

Lemma nonnegative_empty (L : WaterfallLayout) :
  0 <= margin L ->
  0 <= Size.height (minSpace L) ->
  0 <= Size.width (minItemSize L) ->
  0 <= Size.height (minItemSize L) + itemPadding L ->
  layoutInfos L = ∅ ->
  nonnegative L.
Proof.
  intros H1 H2 H3 H4 He. repeat split; try assumption.
  intros k e Hk. rewrite He, lookup_empty in Hk. discriminate.
Qed.

Lemma items_on_grid_witness :
  exists e column,
    layoutInfos fourCardsBuilt !! skey "d" = Some e /\
    li_key e = skey "d" /\
    0 <= column < numColumns fourCardsBuilt /\
    Rect.x (rect e)
      = margin fourCards
        + column * (itemWidth fourCardsBuilt + horizontalSpacing fourCardsBuilt) /\
    Rect.width (rect e) = itemWidth fourCardsBuilt /\
    Size.width (minItemSize fourCards) <= itemWidth fourCardsBuilt.
Proof.
  apply (items_on_grid noResize viewport800 fourCards fourCardsBuilt (skey "d")).
  - vm_compute. reflexivity.
  - simpl. auto.
  - intros [H | H]; discriminate.
Defined.

Lemma items_within_content_witness :
  exists e,
    layoutInfos fourCardsBuilt !! skey "d" = Some e /\
    margin fourCards <= Rect.y (rect e) /\
    0 <= Rect.height (rect e) /\
    Rect.maxY (rect e) <= Size.height (contentSize fourCardsBuilt).
Proof.
  apply (items_within_content noResize viewport800 fourCards fourCardsBuilt (skey "d")).
  - apply nonnegative_empty; simpl; try lia. reflexivity.
  - vm_compute. reflexivity.
  - simpl. auto.
  - intros [H | H]; discriminate.
Defined.

Lemma column_items_apart_witness :
  Rect.maxY (rect (mkLayoutInfo "item" (skey "a") (Rect.mk 24 24 240 240) true))
  + Size.height (minSpace fourCards)
  <= Rect.y (rect (mkLayoutInfo "item" (skey "d") (Rect.mk 24 288 240 240) true)) \/
  Rect.maxY (rect (mkLayoutInfo "item" (skey "d") (Rect.mk 24 288 240 240) true))
  + Size.height (minSpace fourCards)
  <= Rect.y (rect (mkLayoutInfo "item" (skey "a") (Rect.mk 24 24 240 240) true)).
Proof.
  apply (column_items_apart noResize viewport800 fourCards fourCardsBuilt
           (skey "a") (skey "d")).
  - apply nonnegative_empty; simpl; try lia. reflexivity.
  - vm_compute. reflexivity.
  - vm_compute. discriminate.
  - simpl. auto.
  - simpl. auto.
  - intros [H | H]; discriminate.
  - intros [H | H]; discriminate.
  - discriminate.
  - vm_compute. reflexivity.
  - vm_compute. reflexivity.
  - reflexivity.
Defined.

(** ** Balance of the columns *)

Lemma balanced_step (l : list Z) (d D : Z) :
  l <> [] ->
  0 <= d <= D ->
  (forall i j, (i < length l)%nat -> (j < length l)%nat -> l !!! i - l !!! j <= D) ->
  forall i j,
    (i < length l)%nat -> (j < length l)%nat ->
    <[getNextColumnIndex l := l !!! getNextColumnIndex l + d]> l !!! i
    - <[getNextColumnIndex l := l !!! getNextColumnIndex l + d]> l !!! j <= D.
Proof.
  intros Hne Hd Hspread i j Hi Hj.
  pose proof (getNextColumnIndex_argmin l Hne) as (Hc & Hleast & _).
  set (c := getNextColumnIndex l) in *.
  pose proof (Hleast i Hi). pose proof (Hleast j Hj).
  pose proof (Hspread i j Hi Hj).
  destruct (decide (c = i)) as [<- | Hci]; destruct (decide (c = j)) as [<- | Hcj];
    rewrite ?list_lookup_total_insert_eq by assumption;
    rewrite ?list_lookup_total_insert_ne by assumption; lia.
Qed.

Lemma layoutNodes_balanced L ctx iw hs D nodes :
  forall p p',
    layoutNodes L ctx iw hs nodes p = Done p' ->
    columnHeights p <> [] ->
    (forall k e, In k (Collection.getKeys nodes) -> infos p' !! k = Some e ->
                 0 <= Rect.height (rect e) + Size.height (minSpace L) <= D) ->
    (forall i j, (i < length (columnHeights p))%nat ->
                 (j < length (columnHeights p))%nat ->
                 columnHeights p !!! i - columnHeights p !!! j <= D) ->
    forall i j, (i < length (columnHeights p'))%nat ->
                (j < length (columnHeights p'))%nat ->
                columnHeights p' !!! i - columnHeights p' !!! j <= D.
Proof.
  induction nodes as [| node rest IH]; intros p p' Hrun Hne Hh Hspread.
  - simpl in Hrun. injection Hrun as <-. exact Hspread.
  - apply layoutNodes_cons in Hrun as (p1 & Hstep & Hrest).
    pose proof Hstep as Hinv.
    apply layoutNode_inv in Hinv as (h & e & _ & Hp1).
    assert (Hbound : 0 <= h + Size.height (minSpace L) <= D).
    { assert (Hk1 : infos p1 !! node_key node
                    = Some (mkLayoutInfo (node_type node) (node_key node)
                              (Rect.mk
                                 (margin L
                                  + Z.of_nat (getNextColumnIndex (columnHeights p))
                                    * (iw + hs))
                                 (columnHeights p !!! getNextColumnIndex (columnHeights p))
                                 iw h) e)).
      { rewrite Hp1. cbn [infos]. apply lookup_insert_eq. }
      destruct (layoutNodes_carry _ _ _ _ _ _ _ _ _ Hrest Hk1)
        as (o' & Ho' & Hheight & _).
      specialize (Hh _ _ (or_introl eq_refl) Ho').
      rewrite Hheight in Hh. exact Hh. }
    apply (IH p1 p' Hrest).
    + rewrite Hp1. cbn [columnHeights]. intros Hnil. apply Hne.
      apply (f_equal length) in Hnil. rewrite length_insert in Hnil.
      destruct (columnHeights p); [reflexivity | discriminate].
    + intros k e0 Hk. apply Hh. simpl. auto.
    + rewrite Hp1. cbn [columnHeights]. rewrite length_insert.
      apply balanced_step; assumption.
Qed.

(** X2: the greedy choice keeps the columns balanced.  When the loop of a
    build has ended, there are [numColumns] column heights, and if every
    item's height plus [minSpace.height] lies between 0 and [D], no column is
    higher than another by more than [D]. *)
Theorem columns_balanced (ctx : InvalidationContext) (v : Virtualizer)
    (L : WaterfallLayout) (n iw hs D : Z) (p : Pass) :
  layoutPass L ctx v = Done (n, iw, hs, p) ->
  0 <= D ->
  (forall k e, In k (Collection.getKeys (collection L)) -> infos p !! k = Some e ->
               0 <= Rect.height (rect e) + Size.height (minSpace L) <= D) ->
  length (columnHeights p) = Z.to_nat n /\
  forall i j, (i < Z.to_nat n)%nat -> (j < Z.to_nat n)%nat ->
              columnHeights p !!! i - columnHeights p !!! j <= D.
Proof.
  intros Hp HD Hh.
  apply layoutPass_inv in Hp as (_ & Hrange & _ & _ & Hrun).
  pose proof (layoutNodes_length _ _ _ _ _ _ _ Hrun) as Hlen.
  cbn [columnHeights] in Hlen. rewrite length_replicate in Hlen.
  split; [assumption |].
  rewrite <- Hlen.
  apply (layoutNodes_balanced L ctx iw hs D _ _ _ Hrun).
  - cbn [columnHeights]. intros Hnil. apply (f_equal length) in Hnil.
    rewrite length_replicate in Hnil. simpl in Hnil. lia.
  - exact Hh.
  - cbn [columnHeights]. rewrite length_replicate. intros i j Hi Hj.
    rewrite !lookup_total_replicate_2 by assumption. lia.
Qed.

(** ** The width of the grid *)

Lemma round_div_bounds a b :
  0 < b -> 2 * a - b < 2 * b * round_div a b <= 2 * a + b.
Proof.
  intros Hb. unfold round_div.
  pose proof (Z.div_mod (2 * a + b) (2 * b) ltac:(lia)) as Hdm.
  pose proof (Z.mod_pos_bound (2 * a + b) (2 * b) ltac:(lia)) as Hm.
  lia.
Qed.

(** X6: with two columns or more, the grid spans the available width: the
    right edge of the last column differs from [visibleWidth - margin] by at
    most half a pixel for each of the [numColumns - 1] gaps (the rounding of
    the horizontal spacing). *)
Theorem grid_spans_width (ctx : InvalidationContext) (v : Virtualizer)
    (L L' : WaterfallLayout) :
  buildCollection ctx v L = Done L' ->
  2 <= numColumns L' ->
  let right :=
    margin L + (numColumns L' - 1) * (itemWidth L' + horizontalSpacing L')
    + itemWidth L' in
  - (numColumns L' - 1)
  < 2 * (right - (Rect.width (visibleRect v) - margin L))
  <= numColumns L' - 1.
Proof.
  intros Hb Hn.
  apply buildCollection_inv in Hb as (n & iw & hs & p & Hp & ->).
  apply layoutPass_inv in Hp as (_ & _ & _ & Hhs & _).
  unfold set_built in *. cbn [numColumns itemWidth horizontalSpacing] in *.
  unfold computeHorizontalSpacing in Hhs.
  replace (Z.max 1 (n - 1)) with (n - 1) in Hhs by lia.
  pose proof (round_div_bounds
                (Rect.width (visibleRect v) - margin L * 2 - n * iw) (n - 1)
                ltac:(lia)) as Hr.
  rewrite <- Hhs in Hr. cbv zeta. nia.
Qed.

(** X7: when [minItemSize.width + minSpace.width] is positive and the build
    uses two columns or more, that many items of minimum width, each with the
    minimum spacing, fit in the viewport width. *)
Theorem columns_fit_viewport (L : WaterfallLayout) (w n : Z) :
  0 < Size.width (minItemSize L) + Size.width (minSpace L) ->
  computeNumColumns L w = Num n ->
  2 <= n ->
  n * (Size.width (minItemSize L) + Size.width (minSpace L)) <= w.
Proof.
  intros Hd Hn H2. rewrite computeNumColumns_pos in Hn by assumption.
  injection Hn as <-.
  set (d := Size.width (minItemSize L) + Size.width (minSpace L)) in *.
  assert (Hq : Z.max 1 (min_bound (maxColumns L) (w / d)) <= w / d).
  { destruct (maxColumns L); simpl in *; lia. }
  pose proof (Z.mul_div_le w d Hd). nia.
Qed.

(** ** When the build throws *)

(** X13: when [minItemSize.width + minSpace.width] is zero, the division
    that counts the columns yields [NaN] for a viewport of width zero and
    [Infinity] for a wider one; [buildCollection] and [validate] then throw a
    RangeError at the allocation of the column heights, in the second case
    when [maxColumns] is [Infinity]. *)
Theorem build_throws_without_minimum (ctx : InvalidationContext) (v : Virtualizer)
    (L : WaterfallLayout) :
  Size.width (minItemSize L) + Size.width (minSpace L) = 0 ->
  Rect.width (visibleRect v) = 0 \/
  (0 < Rect.width (visibleRect v) /\ maxColumns L = Infinity) ->
  buildCollection ctx v L = Throw RangeError /\
  validate ctx v L = Throw RangeError.
Proof.
  intros Hd Hw.
  assert (Hb : forall c, buildCollection ctx v (set_collection c L) = Throw RangeError).
  { intros c. unfold buildCollection, layoutPass, computeNumColumns, js_floor_div.
    cbn [minItemSize minSpace maxColumns set_collection].
    rewrite Hd. simpl (0 =? 0).
    destruct Hw as [-> | [Hpos ->]].
    - reflexivity.
    - destruct (Z.ltb_spec 0 (Rect.width (visibleRect v))); [reflexivity | lia]. }
  split.
  - specialize (Hb (collection L)).
    replace (set_collection (collection L) L) with L in Hb; [exact Hb |].
    destruct L; reflexivity.
  - unfold validate. rewrite Hb. reflexivity.
Qed.

(** ** updateItemSize, once more *)

(** X14: once [updateItemSize(key, size)] has returned [true], the same call
    on the layout it leaves returns [false] and changes nothing: a measured
    size asks for one re-layout only. *)
Theorem updateItemSize_settles (key : Key) (s : Size.t) (L : WaterfallLayout) :
  returned (updateItemSize key (Some s) L) = true ->
  updateItemSize key (Some s) (after (updateItemSize key (Some s) L))
  = mkUpdated false (after (updateItemSize key (Some s) L)) None.
Proof.
  intros Hr.
  assert (Hli : exists li, layoutInfos L !! key = Some li /\
                           Size.height s <> Rect.height (rect li)).
  { unfold updateItemSize in Hr.
    destruct (layoutInfos L !! key) as [li |]; [| discriminate].
    destruct (Z.eqb_spec (Size.height s) (Rect.height (rect li))); [discriminate |].
    eauto. }
  destruct Hli as (li & Hli & Hne).
  rewrite (updateItemSize_changed key s li L Hli Hne). cbn [after].
  unfold updateItemSize. cbn [layoutInfos set_layoutInfos].
  rewrite lookup_insert_eq. cbn [rect Rect.height].
  rewrite Z.eqb_refl. reflexivity.
Qed.

(** X15: [updateItemSize] is local.  It leaves the entry of every other key
    as it was, it adds no key to the cache and removes none, the entry of the
    key itself keeps its key, type, position and width, and no field of the
    layout other than the cache changes. *)
Theorem updateItemSize_frame (key : Key) (size : option Size.t)
    (L : WaterfallLayout) :
  let L' := after (updateItemSize key size L) in
  (forall k, k <> key -> layoutInfos L' !! k = layoutInfos L !! k) /\
  (forall k, is_Some (layoutInfos L' !! k) <-> is_Some (layoutInfos L !! k)) /\
  (forall e', layoutInfos L' !! key = Some e' ->
     exists e, layoutInfos L !! key = Some e /\
       li_key e' = li_key e /\ li_type e' = li_type e /\
       Rect.x (rect e') = Rect.x (rect e) /\ Rect.y (rect e') = Rect.y (rect e) /\
       Rect.width (rect e') = Rect.width (rect e)) /\
  set_layoutInfos (layoutInfos L) L' = L.
Proof.
  unfold updateItemSize.
  destruct size as [s |]; destruct (layoutInfos L !! key) as [li |] eqn:Hli;
    cbn zeta;
    try (cbn [after]; rewrite ?Hli; repeat split; try tauto;
         [intros e' He'; rewrite He' in Hli; discriminate
         | destruct L; reflexivity]).
  - destruct (Z.eqb_spec (Size.height s) (Rect.height (rect li))); cbn [after negb].
    + repeat split; try tauto.
      * intros e' He'. exists li. rewrite He' in Hli. injection Hli as ->.
        repeat split; reflexivity.
      * destruct L; reflexivity.
    + cbn [layoutInfos set_layoutInfos]. repeat split.
      * intros k Hk. apply lookup_insert_ne. congruence.
      * destruct (decide (key = k)) as [<- | Hk].
        -- rewrite Hli. eauto.
        -- rewrite lookup_insert_ne by assumption. tauto.
      * destruct (decide (key = k)) as [<- | Hk].
        -- rewrite lookup_insert_eq. eauto.
        -- rewrite lookup_insert_ne by assumption. tauto.
      * rewrite lookup_insert_eq. intros e' [= <-]. exists li.
        repeat split; reflexivity.
      * destruct L; reflexivity.
  - cbn [after]. repeat split; try tauto.
    + intros e' He'. exists li. rewrite He' in Hli. injection Hli as ->.
      repeat split; reflexivity.
    + destruct L; reflexivity.
Qed.

(** X16: a measured height survives the next build.  After
    [updateItemSize(key, size)] has returned [true], a build of the layout
    gives the entry of [key] (not a synthetic key) the height [size.height],
    whether or not the key is still in the collection. *)
Theorem measured_height_survives_build (ctx : InvalidationContext)
    (v : Virtualizer) (key : Key) (s : Size.t) (L L' : WaterfallLayout) :
  returned (updateItemSize key (Some s) L) = true ->
  ~ synthetic key ->
  buildCollection ctx v (after (updateItemSize key (Some s) L)) = Done L' ->
  exists e,
    layoutInfos L' !! key = Some e /\
    Rect.height (rect e) = Size.height s.
Proof.
  intros Hr Hsyn Hb.
  assert (Hli : exists li, layoutInfos L !! key = Some li /\
                           Size.height s <> Rect.height (rect li)).
  { unfold updateItemSize in Hr.
    destruct (layoutInfos L !! key) as [li |]; [| discriminate].
    destruct (Z.eqb_spec (Size.height s) (Rect.height (rect li))); [discriminate |].
    eauto. }
  destruct Hli as (li & Hli & Hne).
  rewrite (updateItemSize_changed key s li L Hli Hne) in Hb. cbn [after] in Hb.
  match type of Hb with
  | buildCollection _ _ (set_layoutInfos (<[_ := ?E]> _) _) = _ =>
      assert (Hk1 : layoutInfos
                      (set_layoutInfos (<[key := E]> (layoutInfos L)) L) !! key
                    = Some E)
        by (cbn [layoutInfos set_layoutInfos]; apply lookup_insert_eq)
  end.
  destruct (buildCollection_lookup_item _ _ _ _ _ Hb Hsyn)
    as (n & iw & hs & p & Hp & _ & _ & _ & ->).
  apply layoutPass_inv in Hp as (_ & _ & _ & _ & Hrun).
  destruct (layoutNodes_carry _ _ _ _ _ _ _ _ _ Hrun Hk1) as (o' & Ho' & Hh & _).
  exists o'. split; [assumption |]. rewrite Hh. reflexivity.
Qed.

(** ** The navigator and the cache *)

Section NavigatorAndCache.

Variable closest : gmap Key LayoutInfo -> Rect.t -> Rect.t -> option LayoutInfo.

(** X17: each of the four navigator queries throws a TypeError exactly when
    the key has no entry in the cache.  For a key with an entry all four
    return, and [getKeyRightOf] and [getKeyLeftOf] are [getClosestRight] and
    [getClosestLeft], swapped under right-to-left direction. *)
Theorem navigator_throws_iff (v : Virtualizer) (L : WaterfallLayout) (key : Key) :
  (getClosestRight closest v L key = Throw TypeError <-> layoutInfos L !! key = None) /\
  (getClosestLeft closest v L key = Throw TypeError <-> layoutInfos L !! key = None) /\
  (getKeyRightOf closest v L key = Throw TypeError <-> layoutInfos L !! key = None) /\
  (getKeyLeftOf closest v L key = Throw TypeError <-> layoutInfos L !! key = None) /\
  (is_Some (layoutInfos L !! key) ->
   exists r l,
     getClosestRight closest v L key = Done r /\
     getClosestLeft closest v L key = Done l /\
     getKeyRightOf closest v L key
       = Done (match direction L with ltr => r | rtl => l end) /\
     getKeyLeftOf closest v L key
       = Done (match direction L with ltr => l | rtl => r end)).
Proof.
  assert (HR : getClosestRight closest v L key = Throw TypeError
               <-> layoutInfos L !! key = None).
  { unfold getClosestRight, getLayoutInfo.
    destruct (layoutInfos L !! key); [| tauto].
    destruct (falsy_key _); split; discriminate. }
  assert (HL : getClosestLeft closest v L key = Throw TypeError
               <-> layoutInfos L !! key = None).
  { unfold getClosestLeft, getLayoutInfo.
    destruct (layoutInfos L !! key); [| tauto].
    destruct (falsy_key _); split; discriminate. }
  split; [exact HR |]. split; [exact HL |].
  split; [unfold getKeyRightOf; destruct (direction L); assumption |].
  split; [unfold getKeyLeftOf; destruct (direction L); assumption |].
  intros [li Hli].
  destruct (getClosestRight_returns closest v L key li Hli) as [r Hr].
  destruct (getClosestLeft_returns closest v L key li Hli) as [l Hl].
  exists r, l. unfold getKeyRightOf, getKeyLeftOf.
  destruct (direction L); auto.
Qed.

(** X18: once [validate] has returned, [getKeyRightOf] and [getKeyLeftOf]
    return (they do not throw) for every key of the validated collection that
    is not synthetic, whatever the viewport is at the time of the query. *)
Theorem navigator_after_validate (ctx : InvalidationContext) (v v' : Virtualizer)
    (L L' : WaterfallLayout) (key : Key) :
  validate ctx v L = Done L' ->
  In key (Collection.getKeys (v_collection v)) ->
  ~ synthetic key ->
  exists r l,
    getKeyRightOf closest v' L' key = Done r /\
    getKeyLeftOf closest v' L' key = Done l.
Proof.
  intros Hv Hk Hsyn.
  apply validate_inv in Hv as (L1 & Hb & Hc1 & _ & ->).
  assert (Hsome : is_Some (layoutInfos L1 !! key)).
  { apply (buildCollection_domain _ _ _ _ key Hb Hsyn). left. exact Hk. }
  assert (Hentry : exists li,
    layoutInfos
      (set_lastCollection (Some (v_collection v))
         match lastCollection L with
         | Some last => removeStale last L1
         | None => L1
         end) !! key = Some li).
  { destruct (lastCollection L) as [last |]; cbn [set_lastCollection layoutInfos].
    - rewrite removeStale_lookup_kept; [exact Hsome | | |].
      + rewrite Hc1. intros [_ Hnone]. apply getItem_None in Hnone. contradiction.
      + intros [-> _]. apply Hsyn. left. reflexivity.
      + intros [-> _]. apply Hsyn. right. reflexivity.
    - exact Hsome. }
  destruct Hentry as [li Hli].
  destruct (getClosestRight_returns closest v' _ key li Hli) as [r Hr].
  destruct (getClosestLeft_returns closest v' _ key li Hli) as [l Hl].
  unfold getKeyRightOf, getKeyLeftOf.
  match goal with |- context [direction ?X] => destruct (direction X) end; eauto.
Qed.

End NavigatorAndCache.

(** ** Keys that are new to the cache *)

Lemma layoutNodes_fresh_height L ctx iw hs nodes k :
  forall p p' node,
    layoutNodes L ctx iw hs nodes p = Done p' ->
    infos p !! k = None ->
    Collection.getItem nodes k = Some node ->
    exists e,
      infos p' !! k = Some e /\
      estimatedSize e = true /\
      fst (estimateHeight L ctx iw None node) = Num (Rect.height (rect e)).
Proof.
  induction nodes as [| n0 rest IH]; intros p p' node Hrun Hk Hitem.
  - discriminate.
  - apply layoutNodes_cons in Hrun as (p1 & Hstep & Hrest).
    unfold Collection.getItem in Hitem. simpl in Hitem.
    destruct (bool_decide_reflect (node_key n0 = k)) as [Heq | Hne].
    + injection Hitem as <-.
      apply layoutNode_inv in Hstep as (h & e & Hest & Hp1).
      rewrite Heq, Hk in Hest.
      assert (He : e = true).
      { pose proof (estimateHeight_fresh_flag L ctx iw n0) as Hf.
        rewrite Hest in Hf. exact Hf. }
      assert (Hk1 : infos p1 !! k
                    = Some (mkLayoutInfo (node_type n0) (node_key n0)
                              (Rect.mk
                                 (margin L
                                  + Z.of_nat (getNextColumnIndex (columnHeights p))
                                    * (iw + hs))
                                 (columnHeights p !!! getNextColumnIndex (columnHeights p))
                                 iw h) e)).
      { rewrite Hp1. cbn [infos]. rewrite <- Heq. apply lookup_insert_eq. }
      destruct (layoutNodes_carry _ _ _ _ _ _ _ _ _ Hrest Hk1)
        as (o' & Ho' & Hheight & Hin & Hout).
      exists o'. split; [assumption |]. split.
      * destruct (In_dec (fun a b : Key => decide (a = b)) k
                    (Collection.getKeys rest)) as [Hi | Ho].
        -- rewrite (Hin Hi). cbn [estimatedSize]. rewrite He. apply orb_true_r.
        -- rewrite (Hout Ho). cbn [estimatedSize]. exact He.
      * rewrite Hest, Hheight. reflexivity.
    + apply (IH p1 p' node Hrest); [| exact Hitem].
      apply layoutNode_inv in Hstep as (h & e & _ & ->). cbn [infos].
      rewrite lookup_insert_ne by assumption. exact Hk.
Qed.

(** X9: an item whose key (not synthetic) is new to the cache gets an entry
    marked as estimated, whose height is the estimate for the first node of
    the collection with that key at the item width of this build (the height
    scaled from the intrinsic size, or the square fallback). *)
Theorem fresh_item_height (ctx : InvalidationContext) (v : Virtualizer)
    (L L' : WaterfallLayout) (k : Key) (node : Node) :
  buildCollection ctx v L = Done L' ->
  ~ synthetic k ->
  layoutInfos L !! k = None ->
  Collection.getItem (collection L) k = Some node ->
  exists e,
    layoutInfos L' !! k = Some e /\
    estimatedSize e = true /\
    fst (estimateHeight L ctx (itemWidth L') None node)
      = Num (Rect.height (rect e)).
Proof.
  intros Hb Hsyn Hk Hitem.
  destruct (buildCollection_lookup_item _ _ _ _ _ Hb Hsyn)
    as (n & iw & hs & p & Hp & _ & -> & _ & ->).
  apply layoutPass_inv in Hp as (_ & _ & _ & _ & Hrun).
  apply (layoutNodes_fresh_height _ _ _ _ _ _ _ _ _ Hrun Hk Hitem).
Qed.

(** ** The states a layout goes through *)

Lemma updateItemSize_fields key size L :
  lastCollection (after (updateItemSize key size L)) = lastCollection L /\
  (layoutInfos L = ∅ -> layoutInfos (after (updateItemSize key size L)) = ∅).
Proof.
  unfold updateItemSize.
  destruct size as [s |]; destruct (layoutInfos L !! key) as [li |] eqn:Hli;
    try (split; [reflexivity | auto]).
  destruct (negb _); cbn [after]; split; try reflexivity; try auto.
  intros Hempty. rewrite Hempty, lookup_empty in Hli. discriminate.
Qed.

Lemma updateItemSize_dom key size L k :
  is_Some (layoutInfos (after (updateItemSize key size L)) !! k)
  <-> is_Some (layoutInfos L !! k).
Proof.
  unfold updateItemSize.
  destruct size as [s |]; destruct (layoutInfos L !! key) as [li |] eqn:Hli;
    try reflexivity.
  destruct (negb _); cbn [after]; [| reflexivity].
  cbn [layoutInfos set_layoutInfos].
  destruct (decide (key = k)) as [<- | Hk].
  - rewrite lookup_insert_eq, Hli. split; eauto.
  - rewrite lookup_insert_ne by assumption. reflexivity.
Qed.

Lemma reachable_tracked (L : WaterfallLayout) :
  reachable L ->
  tracked L /\
  match lastCollection L with
  | None => layoutInfos L = ∅
  | Some last =>
      forall k, ~ synthetic k ->
        (is_Some (layoutInfos L !! k) <-> In k (Collection.getKeys last))
  end.
Proof.
  induction 1 as [options | b L _ [IHt IHi] | d L _ [IHt IHi]
                 | ctx v L L' _ [IHt IHi] Hkeys Hv
                 | key size L _ [IHt IHi]].
  - split; reflexivity.
  - split; [exact IHt | exact IHi].
  - split; [exact IHt | exact IHi].
  - destruct (validate_cache ctx v L L' IHt Hkeys Hv) as (Ht' & Hitems & _).
    split; [exact Ht' |].
    apply validate_inv in Hv as (L1 & _ & _ & _ & HL').
    assert (Hlast : lastCollection L' = Some (v_collection v))
      by (rewrite HL'; reflexivity).
    rewrite Hlast. exact Hitems.
  - destruct (updateItemSize_fields key size L) as [Hlast Hempty].
    pose proof (updateItemSize_dom key size L) as Hdom.
    unfold tracked in *. rewrite Hlast.
    destruct (lastCollection L) as [last |].
    + split.
      * destruct IHt as [Hk Hc]. split; [exact Hk |].
        intros k Hs. apply Hc, Hdom, Hs.
      * intros k Hk. rewrite Hdom. apply IHi. exact Hk.
    + split; apply Hempty; assumption.
Qed.

(** X19: in every state a layout reaches from its construction, through
    [validate] over collections without synthetic keys, [updateItemSize] and
    changes of [isLoading] and [direction]: before the first [validate] the
    cache is empty; afterwards a key that is not synthetic has an entry
    exactly when it is a key of the collection validated last. *)
Theorem reachable_cache_keys (L : WaterfallLayout) :
  reachable L ->
  match lastCollection L with
  | None => layoutInfos L = ∅
  | Some last =>
      forall k, ~ synthetic k ->
        (is_Some (layoutInfos L !! k) <-> In k (Collection.getKeys last))
  end.
Proof.
  intros Hr. destruct (reachable_tracked L Hr) as [_ H]. exact H.
Qed.

(** X10: [validate] on a reachable layout, over a collection without
    synthetic keys, leaves in the cache: an entry for a key that is not
    synthetic exactly when the key belongs to the collection; the loader
    entry exactly when the collection is loading; no placeholder entry when
    the collection has items; the placeholder entry when the collection is
    empty and not loading. *)
Theorem validate_cache_exact (ctx : InvalidationContext) (v : Virtualizer)
    (L L' : WaterfallLayout) :
  reachable L ->
  (forall k, In k (Collection.getKeys (v_collection v)) -> ~ synthetic k) ->
  validate ctx v L = Done L' ->
  (forall k, ~ synthetic k ->
     (is_Some (layoutInfos L' !! k) <-> In k (Collection.getKeys (v_collection v)))) /\
  (is_Some (layoutInfos L' !! skey "loader") <-> isLoading L = true) /\
  (0 < Collection.size (v_collection v) ->
     layoutInfos L' !! skey "placeholder" = None) /\
  (Collection.size (v_collection v) = 0 -> isLoading L = false ->
     is_Some (layoutInfos L' !! skey "placeholder")).
Proof.
  intros Hr Hkeys Hv.
  destruct (reachable_tracked L Hr) as [Ht _].
  destruct (validate_cache ctx v L L' Ht Hkeys Hv) as (_ & H1 & H2 & H3 & H4).
  auto.
Qed.

(** ** The empty collection *)

(** X20: a build over an empty collection makes the content as large as the
    viewport and no larger.  Not loading, the cache gets the placeholder
    [(0, 0, visibleWidth, visibleHeight)] and the content size is the size
    of the viewport; loading, the content height is the visible height, or 60
    when that height is zero. *)
Theorem empty_collection_content (ctx : InvalidationContext) (v : Virtualizer)
    (L L' : WaterfallLayout) :
  collection L = [] ->
  buildCollection ctx v L = Done L' ->
  Size.width (contentSize L') = Rect.width (visibleRect v) /\
  (isLoading L = false ->
     layoutInfos L' !! skey "placeholder"
       = Some (mkLayoutInfo "placeholder" (skey "placeholder")
                 (Rect.mk 0 0 (Rect.width (visibleRect v))
                    (Rect.height (visibleRect v))) false) /\
     Size.height (contentSize L') = Rect.height (visibleRect v)) /\
  (isLoading L = true ->
     Size.height (contentSize L')
       = if Rect.height (visibleRect v) =? 0 then 60
         else Rect.height (visibleRect v)).
Proof.
  intros Hc Hb.
  apply buildCollection_inv in Hb as (n & iw & hs & p & _ & ->).
  unfold set_built. cbn [contentSize layoutInfos Size.width Size.height].
  split; [reflexivity |].
  split.
  - intros Hload. rewrite placed_lookup_placeholder.
    unfold placePlaceholder, placeLoader. rewrite Hload, Hc. simpl.
    split; reflexivity.
  - intros Hload.
    unfold placePlaceholder, placeLoader, loaderRect, truthy. rewrite Hload, Hc.
    simpl. unfold Rect.maxY. simpl.
    destruct (Rect.height (visibleRect v) =? 0); reflexivity.
Qed.

(** ** Closed instances *)

Lemma columns_balanced_witness :
  length (columnHeights fourCardsPass) = Z.to_nat 3 /\
  forall i j, (i < Z.to_nat 3)%nat -> (j < Z.to_nat 3)%nat ->
              columnHeights fourCardsPass !!! i - columnHeights fourCardsPass !!! j
              <= 264.
Proof.
  apply (columns_balanced noResize viewport800 fourCards 3 240 16 264 fourCardsPass).
  - vm_compute. reflexivity.
  - lia.
  - intros k e [<- | [<- | [<- | [<- | []]]]] H; vm_compute in H;
      injection H as <-; simpl; lia.
Defined.

Lemma grid_spans_width_witness :
  - (numColumns fourCardsBuilt - 1)
  < 2 * (margin fourCards
         + (numColumns fourCardsBuilt - 1)
           * (itemWidth fourCardsBuilt + horizontalSpacing fourCardsBuilt)
         + itemWidth fourCardsBuilt
         - (Rect.width (visibleRect viewport800) - margin fourCards))
  <= numColumns fourCardsBuilt - 1.
Proof.
  apply (grid_spans_width noResize viewport800 fourCards fourCardsBuilt).
  - vm_compute. reflexivity.
  - vm_compute. discriminate.
Defined.

Lemma columns_fit_viewport_witness :
  3 * (Size.width (minItemSize defaultLayout) + Size.width (minSpace defaultLayout))
  <= 800.
Proof.
  apply (columns_fit_viewport defaultLayout 800 3).
  - simpl. lia.
  - vm_compute. reflexivity.
  - lia.
Defined.

Lemma build_throws_without_minimum_witness :
  buildCollection noResize (viewport [] 0 600) noMinimum = Throw RangeError /\
  validate noResize (viewport [] 0 600) noMinimum = Throw RangeError.
Proof.
  apply (build_throws_without_minimum noResize (viewport [] 0 600) noMinimum).
  - reflexivity.
  - left. reflexivity.
Defined.

Lemma updateItemSize_settles_witness :
  updateItemSize (skey "a") (Some (Size.mk 240 300))
    (after (updateItemSize (skey "a") (Some (Size.mk 240 300)) oneCard))
  = mkUpdated false
      (after (updateItemSize (skey "a") (Some (Size.mk 240 300)) oneCard)) None.
Proof.
  apply (updateItemSize_settles (skey "a") (Size.mk 240 300) oneCard).
  vm_compute. reflexivity.
Defined.

Lemma measured_height_survives_build_witness :
  exists e,
    layoutInfos oneCardMeasuredRebuilt !! skey "a" = Some e /\
    Rect.height (rect e) = Size.height (Size.mk 240 300).
Proof.
  apply (measured_height_survives_build noResize (viewport [item "a"] 800 600)
           (skey "a") (Size.mk 240 300) oneCardCollection oneCardMeasuredRebuilt).
  - vm_compute. reflexivity.
  - intros [H | H]; discriminate.
  - vm_compute. reflexivity.
Defined.

Lemma navigator_after_validate_witness :
  exists r l,
    getKeyRightOf findClosest (viewport [item "a"; item "b"] 800 600)
      afterTwoCards (skey "a") = Done r /\
    getKeyLeftOf findClosest (viewport [item "a"; item "b"] 800 600)
      afterTwoCards (skey "a") = Done l.
Proof.
  apply (navigator_after_validate findClosest noResize
           (viewport [item "a"; item "b"] 800 600)
           (viewport [item "a"; item "b"] 800 600)
           defaultLayout afterTwoCards (skey "a")).
  - vm_compute. reflexivity.
  - simpl. auto.
  - intros [H | H]; discriminate.
Defined.

Lemma fresh_item_height_witness :
  exists e,
    layoutInfos photoBuilt !! skey "p" = Some e /\
    estimatedSize e = true /\
    fst (estimateHeight photoCard noResize (itemWidth photoBuilt) None photo)
      = Num (Rect.height (rect e)).
Proof.
  apply (fresh_item_height noResize (viewport [photo] 800 600) photoCard photoBuilt
           (skey "p") photo).
  - vm_compute. reflexivity.
  - intros [H | H]; discriminate.
  - reflexivity.
  - reflexivity.
Defined.

(** The build of the 363 x 352 card at item width 240 stores the height
    [max(136, 247) + 56 = 303]. *)
Lemma photo_built_height :
  itemWidth photoBuilt = 240 /\
  layoutInfos photoBuilt !! skey "p"
  = Some (mkLayoutInfo "item" (skey "p") (Rect.mk 24 24 240 303) true).
Proof. split; vm_compute; reflexivity. Qed.

Lemma reachable_afterTwoCards : reachable afterTwoCards.
Proof.
  apply (reach_validate noResize (viewport [item "a"; item "b"] 800 600)
           defaultLayout afterTwoCards).
  - apply reach_new.
  - intros k [<- | [<- | []]] [H | H]; discriminate.
  - vm_compute. reflexivity.
Defined.

Lemma reachable_cache_keys_witness :
  lastCollection afterTwoCards = Some [item "a"; item "b"] /\
  match lastCollection afterTwoCards with
  | None => layoutInfos afterTwoCards = ∅
  | Some last =>
      forall k, ~ synthetic k ->
        (is_Some (layoutInfos afterTwoCards !! k) <-> In k (Collection.getKeys last))
  end.
Proof.
  split; [vm_compute; reflexivity |].
  apply (reachable_cache_keys afterTwoCards). exact reachable_afterTwoCards.
Defined.

Lemma validate_cache_exact_witness :
  (forall k, ~ synthetic k ->
     (is_Some (layoutInfos afterTwoCards !! k)
      <-> In k (Collection.getKeys
                  (v_collection (viewport [item "a"; item "b"] 800 600))))) /\
  (is_Some (layoutInfos afterTwoCards !! skey "loader")
   <-> isLoading defaultLayout = true) /\
  (0 < Collection.size (v_collection (viewport [item "a"; item "b"] 800 600)) ->
     layoutInfos afterTwoCards !! skey "placeholder" = None) /\
  (Collection.size (v_collection (viewport [item "a"; item "b"] 800 600)) = 0 ->
     isLoading defaultLayout = false ->
     is_Some (layoutInfos afterTwoCards !! skey "placeholder")).
Proof.
  apply (validate_cache_exact noResize (viewport [item "a"; item "b"] 800 600)
           defaultLayout afterTwoCards).
  - apply reach_new.
  - intros k [<- | [<- | []]] [H | H]; discriminate.
  - vm_compute. reflexivity.
Defined.

Lemma empty_collection_content_witness :
  Size.width (contentSize emptyBuilt)
  = Rect.width (visibleRect (viewport [] 800 600)) /\
  (isLoading defaultLayout = false ->
     layoutInfos emptyBuilt !! skey "placeholder"
       = Some (mkLayoutInfo "placeholder" (skey "placeholder")
                 (Rect.mk 0 0 (Rect.width (visibleRect (viewport [] 800 600)))
                    (Rect.height (visibleRect (viewport [] 800 600)))) false) /\
     Size.height (contentSize emptyBuilt)
     = Rect.height (visibleRect (viewport [] 800 600))) /\
  (isLoading defaultLayout = true ->
     Size.height (contentSize emptyBuilt)
       = if Rect.height (visibleRect (viewport [] 800 600)) =? 0 then 60
         else Rect.height (visibleRect (viewport [] 800 600))).
Proof.
  apply (empty_collection_content noResize (viewport [] 800 600)
           defaultLayout emptyBuilt).
  - reflexivity.
  - vm_compute. reflexivity.
Defined.

(** ** After a change of the viewport size *)

(** X21: a build whose invalidation context says that the size changed marks
    every item of the collection (under a key that is not synthetic) as
    estimated, whatever its mark was before. *)
Theorem resize_marks_items_estimated (ctx : InvalidationContext) (v : Virtualizer)
    (L L' : WaterfallLayout) (k : Key) :
  sizeChanged ctx = true ->
  buildCollection ctx v L = Done L' ->
  In k (Collection.getKeys (collection L)) ->
  ~ synthetic k ->
  exists e, layoutInfos L' !! k = Some e /\ estimatedSize e = true.
Proof.
  intros Hsc Hb Hk Hsyn.
  destruct (buildCollection_lookup_item _ _ _ _ _ Hb Hsyn)
    as (n & iw & hs & p & Hp & _ & _ & _ & ->).
  apply layoutPass_inv in Hp as (_ & _ & _ & _ & Hrun).
  destruct (layoutInfos L !! k) as [o |] eqn:Ho.
  - destruct (layoutNodes_carry _ _ _ _ _ _ _ _ _ Hrun Ho)
      as (o' & Ho' & _ & Hin & _).
    exists o'. split; [assumption |]. rewrite (Hin Hk), Hsc. reflexivity.
  - destruct (Collection.getItem (collection L) k) as [node |] eqn:Hitem.
    + destruct (layoutNodes_fresh_height _ _ _ _ _ _ _ _ _ Hrun Ho Hitem)
        as (e & He & Hest & _).
      exists e. split; assumption.
    + apply getItem_None in Hitem. contradiction.
Qed.

Lemma resize_marks_items_estimated_witness :
  exists e, layoutInfos oneCardResized !! skey "a" = Some e /\ estimatedSize e = true.
Proof.
  apply (resize_marks_items_estimated (mkInvalidationContext true)
           (viewport [item "a"] 1000 600) measuredCard oneCardResized (skey "a")).
  - reflexivity.
  - vm_compute. reflexivity.
  - simpl. auto.
  - intros [H | H]; discriminate.
Defined.
